(** * ElectricityMapsSchedulerOperator: a shallow embedding and its properties

    Source: [src/electricitymaps_airflow_scheduler/scheduler.py].

    The operator's [execute] asks the external optimiser for the best start
    time of a deferrable job, reads the clock, and either returns (the job
    proceeds now) or defers itself until the recommended instant.

    The embedding follows the Python code line by line:
    - [timedelta] is CPython's normalised triple (days, seconds, microseconds);
    - [datetime] is an aware UTC instant, in microseconds since
      0001-01-01T00:00:00Z, with CPython's range (years 1..9999) and its
      [OverflowError] on addition out of range;
    - [float] is a finite binary64 value; [int / int] and [float / int] round
      to nearest, ties to even, as CPython does; [int(float)] truncates;
    - the [+] of a [pendulum.DateTime], the class Airflow uses for
      [execution_date], goes through a float number of seconds;
    - effects (the oracle call, the clock, [self.defer]) live in a small
      state-and-exception monad over the host's world. *)

From Stdlib Require Import ZArith List String Lia Bool.
Import ListNotations.
Local Open Scope Z_scope.

(* ===================================================================== *)
(** * Part I: definitions *)
(* ===================================================================== *)

(** ** Python floats (finite binary64 values) *)

Module PyFloat.

(** A finite double is [mant * 2^expo]; [mant] is signed, [|mant| <= 2^53]. *)
Record float := mkFloat { mant : Z; expo : Z }.

(** The value of a float as a fraction [fnum / fden] of integers, [fden > 0]. *)
Definition fnum (x : float) : Z := mant x * 2 ^ Z.max 0 (expo x).
Definition fden (x : float) : Z := 2 ^ Z.max 0 (- expo x).

Definition fneg (x : float) : float := mkFloat (- mant x) (expo x).

(** Nearest integer to [n / d] ([0 <= n], [0 < d]), ties to the even one. *)
Definition round_half_even (n d : Z) : Z :=
  let k := n / d in
  let r := n mod d in
  if 2 * r <? d then k
  else if d <? 2 * r then k + 1
  else if Z.even k then k else k + 1.

(** [a / (q * 2^e)] written as a fraction of integers. *)
Definition scaled_num (a e : Z) : Z := a * 2 ^ Z.max 0 (- e).
Definition scaled_den (q e : Z) : Z := q * 2 ^ Z.max 0 e.

(** The exponent [e] of the binade of [a / q] ([0 < a], [0 < q]):
    [2^52 <= a / (q * 2^e) < 2^53], so that the rounded quotient has the 53
    significant bits of a double. *)
Definition binade (a q : Z) : Z :=
  let e0 := Z.log2 a - Z.log2 q - 52 in
  if 2 ^ 52 * scaled_den q e0 <=? scaled_num a e0 then e0 else e0 - 1.

Definition round_pos (a q : Z) : float :=
  let e := binade a q in
  mkFloat (round_half_even (scaled_num a e) (scaled_den q e)) e.

(** The double nearest to the rational [p / q] ([0 < q]): what CPython's
    [int / int] returns, and what an IEEE division returns on the exact
    quotient of its operands.  The exponent is not clamped: the quotients
    formed from a [timedelta] lie between 2^-42 and 2^47 in magnitude, far
    from the subnormal and overflow thresholds of binary64. *)
Definition of_ratio (p q : Z) : float :=
  match p with
  | 0 => mkFloat 0 0
  | Zpos _ => round_pos p q
  | Zneg _ => fneg (round_pos (- p) q)
  end.

(** [x / c] for a float [x] and a positive Python int [c] that is exactly
    representable (here 3600). *)
Definition fdiv_int (x : float) (c : Z) : float :=
  of_ratio (fnum x) (fden x * c).

(** [int(x)]: truncation toward zero. *)
Definition int_of_float (x : float) : Z := Z.quot (fnum x) (fden x).

End PyFloat.

Import PyFloat.

(** ** [datetime.timedelta] and [datetime.datetime] *)

Module PyDatetime.

(** CPython keeps a [timedelta] as (days, seconds, microseconds) with
    [0 <= seconds < 86400], [0 <= microseconds < 10^6] and
    [|days| <= 999999999]. *)
Record timedelta := mk_timedelta { days : Z; seconds : Z; microseconds : Z }.

Definition wf_timedelta (d : timedelta) : Prop :=
  -999999999 <= days d <= 999999999 /\
  0 <= seconds d < 86400 /\
  0 <= microseconds d < 1000000.

(** [delta_to_microseconds]. *)
Definition to_microseconds (d : timedelta) : Z :=
  (days d * 86400 + seconds d) * 1000000 + microseconds d.

(** The normalising constructor, from a count of microseconds
    ([timedelta(microseconds=us)]; floor division, as in [divmod]). *)
Definition timedelta_of_microseconds (us : Z) : timedelta :=
  mk_timedelta (us / 86400000000) (us mod 86400000000 / 1000000) (us mod 1000000).

(** [timedelta(hours=h, minutes=m, seconds=s, microseconds=us)]. *)
Definition mk_delta (h m s us : Z) : timedelta :=
  timedelta_of_microseconds (((h * 60 + m) * 60 + s) * 1000000 + us).

(** [timedelta.total_seconds()]:
    [((days * 86400 + seconds) * 10**6 + microseconds) / 10**6], a true
    division of two ints, correctly rounded. *)
Definition total_seconds (d : timedelta) : float :=
  of_ratio (to_microseconds d) (10 ^ 6).

(** An aware UTC [datetime], as the number of microseconds elapsed since
    0001-01-01T00:00:00Z.  Comparison of aware datetimes compares instants. *)
Definition datetime := Z.

Definition MINYEAR : Z := 1.
Definition MAXYEAR : Z := 9999.

Definition is_leap (y : Z) : bool :=
  (y mod 4 =? 0) && (negb (y mod 100 =? 0) || (y mod 400 =? 0)).

Definition days_before_year (y : Z) : Z :=
  let y1 := y - 1 in y1 * 365 + y1 / 4 - y1 / 100 + y1 / 400.

Definition days_before_month (y m : Z) : Z :=
  nth (Z.to_nat m) [0; 0; 31; 59; 90; 120; 151; 181; 212; 243; 273; 304; 334] 0
  + (if (2 <? m) && is_leap y then 1 else 0).

(** Proleptic Gregorian ordinal, 0001-01-01 being day 1. *)
Definition ymd2ord (y m d : Z) : Z :=
  days_before_year y + days_before_month y m + d.

(** [datetime(y, mo, d, h, mi, s, us, tzinfo=timezone.utc)]. *)
Definition utc (y mo d h mi s us : Z) : datetime :=
  (ymd2ord y mo d - 1) * 86400000000 + ((h * 60 + mi) * 60 + s) * 1000000 + us.

(** [datetime.min] and [datetime.max] (with tzinfo UTC). *)
Definition datetime_min : datetime := 0.
Definition datetime_max : datetime := Eval cbv in utc 9999 12 31 23 59 59 999999.

Definition in_range (t : Z) : bool := (datetime_min <=? t) && (t <=? datetime_max).

(** [datetime + timedelta] of the standard library: exact, and
    [OverflowError] ([None]) when the sum leaves the years 1..9999.  The
    addition of a [pendulum.DateTime] is [pendulum_add], further down. *)
Definition datetime_add (t : datetime) (d : timedelta) : option datetime :=
  let t' := t + to_microseconds d in
  if in_range t' then Some t' else None.

End PyDatetime.

Import PyDatetime.

(** ** The optimiser's interface ([lib.electricitymaps], not in the sources) *)

(** [tuple[float, float]]: a (latitude, longitude) pair. *)
Definition coords : Type := float * float.

(** The enumeration is declared in [lib.electricitymaps]; the tests name
    one member. *)
Inductive OptimizationSignal :=
| FLOW_TRACED_CARBON_INTENSITY
| OTHER_SIGNAL (name : string).

(** Modelled from the spec: the constant [DEFAULT_OPTIMIZATION_SIGNAL] is
    imported from [lib.electricitymaps], which is absent; the spec gives the
    default as "a flow-traced carbon-intensity metric". *)
Definition DEFAULT_OPTIMIZATION_SIGNAL : OptimizationSignal :=
  FLOW_TRACED_CARBON_INTENSITY.

(** Diagnostics carried by a response (tests, [_make_optimizer_response]). *)
Record OptimizationOutput := mkOptimizationOutput {
  metric_value_immediate_execution : float;
  metric_value_optimal_execution : float;
  metric_value_start_window_execution : float;
  metric_unit : string;
  optimization_metric : OptimizationSignal;
  zone_key : string
}.

Record OptimizerResponse := mkOptimizerResponse {
  optimal_start_time : datetime;
  optimal_location : coords;
  optimization_output : OptimizationOutput
}.

(** The keyword arguments of one call of [schedule_execution]. *)
Record ScheduleArgs := mkScheduleArgs {
  expected_duration_hours : Z;
  end_datetime : datetime;
  optimization_signal : OptimizationSignal;
  locations : list coords
}.

(** The host of the operator: the world the oracle and the clock live in.
    [schedule_execution] is the external oracle: it may change the world
    (time passes), and it returns a response or raises.  [datetime_now_utc]
    is [datetime.now(timezone.utc)]. *)
Class Host := {
  World : Type;
  OracleError : Type;
  schedule_execution : ScheduleArgs -> World -> (OracleError + OptimizerResponse) * World;
  datetime_now_utc : World -> datetime
}.

(** ** Exceptions, results and the monad *)

(** [DateTimeTrigger(moment=..., end_from_trigger=...)]. *)
Record DateTimeTrigger := mkDateTimeTrigger {
  moment : datetime;
  end_from_trigger : bool
}.

Section Monad.
Context {H : Host}.

(** What can leave [execute] other than a return value.  [Propagated e]
    is the exception the oracle raised, whatever its class. *)
Inductive exn :=
| OverflowError                      (* "date value out of range" *)
| Propagated (e : OracleError)       (* raised by [schedule_execution] *)
| TaskDeferred (trigger : DateTimeTrigger) (method_name : string).

Inductive result (A : Type) :=
| Return (a : A)
| Raise (e : exn).
#[global] Arguments Return {A} a.
#[global] Arguments Raise {A} e.

(** The state threaded through a run: the host's world and the calls made
    to the oracle so far, oldest first. *)
Record State := mkState { world : World; oracle_calls : list ScheduleArgs }.

Definition M (A : Type) : Type := State -> result A * State.

Definition ret {A} (a : A) : M A := fun s => (Return a, s).

Definition bind {A B} (c : M A) (k : A -> M B) : M B :=
  fun s => match c s with
           | (Return a, s') => k a s'
           | (Raise e, s') => (Raise e, s')
           end.

Definition raise {A} (e : exn) : M A := fun s => (Raise e, s).

End Monad.

Declare Scope py_scope.
Delimit Scope py_scope with py.
Notation "x <- c ;; k" := (bind c (fun x => k))
  (at level 61, c at next level, right associativity) : py_scope.

Section Operator.
Context {H : Host}.
Local Open Scope py_scope.

(** [context["execution_date"] + self.expected_duration]. *)
Definition add_or_overflow (t : datetime) (d : timedelta) : M datetime :=
  match datetime_add t d with
  | Some t' => ret t'
  | None => raise OverflowError
  end.

(** One call of the oracle: the call is recorded, the world moves on, and
    an error of the oracle is raised as it is. *)
Definition call_schedule_execution (args : ScheduleArgs) : M OptimizerResponse :=
  fun s =>
    let (r, w') := schedule_execution args (world s) in
    let s' := mkState w' (oracle_calls s ++ [args]) in
    match r with
    | inr resp => (Return resp, s')
    | inl e => (Raise (Propagated e), s')
    end.

(** [datetime.now(timezone.utc)]. *)
Definition now_utc : M datetime := fun s => (Return (datetime_now_utc (world s)), s).

(** [BaseOperator.defer]: raises [TaskDeferred]. *)
Definition defer {A} (trigger : DateTimeTrigger) (method_name : string) : M A :=
  raise (TaskDeferred trigger method_name).

(** ** The operator *)

Record ElectricityMapsSchedulerOperator := mkOperator {
  patience : timedelta;
  expected_duration : timedelta;
  location : coords
}.

(** The only key of the Airflow context that [execute] reads, taken to be
    present.  On a context without it the subscript raises [KeyError] before
    anything else; the statements below are about runs that get past it. *)
Record Context := mkContext { execution_date : datetime }.

(** [int(self.expected_duration.total_seconds() / 3600)]. *)
Definition duration_hours (d : timedelta) : Z :=
  int_of_float (fdiv_int (total_seconds d) 3600).

(** The same computation, on the duration's count of microseconds. *)
Definition hours_of_us (us : Z) : Z :=
  int_of_float (fdiv_int (of_ratio us (10 ^ 6)) 3600).

(** The arguments [execute] builds for the oracle, once the deadline is known. *)
Definition schedule_args (self : ElectricityMapsSchedulerOperator) (deadline : datetime)
  : ScheduleArgs :=
  {| expected_duration_hours := duration_hours (expected_duration self);
     end_datetime := deadline;
     optimization_signal := DEFAULT_OPTIMIZATION_SIGNAL;
     locations := [location self] |}.

(** [execute].  Python evaluates the keyword arguments left to right: the
    number of hours first (it cannot fail), then the deadline, whose addition
    may raise before the oracle is reached. *)
Definition execute (self : ElectricityMapsSchedulerOperator) (context : Context) : M unit :=
  deadline <- add_or_overflow (execution_date context) (expected_duration self) ;;
  optimal_execution <- call_schedule_execution (schedule_args self deadline) ;;
  now <- now_utc ;;
  if optimal_start_time optimal_execution <? now then ret tt
  else defer (mkDateTimeTrigger (optimal_start_time optimal_execution) true)
             "execute_complete".

Definition execute_complete (self : ElectricityMapsSchedulerOperator) (context : Context)
  (event_list : list unit) : M unit := ret tt.

(** A run of [execute] from a world in which no call has been made yet. *)
Definition run_execute (self : ElectricityMapsSchedulerOperator) (context : Context)
  (w : World) : result unit * State :=
  execute self context (mkState w []).

(** ** The two outcomes of a decision, as the host sees them *)

Inductive Outcome :=
| ProceedNow
| SuspendUntil (resume_at : datetime) (continuation : string).

(** [None]: the call failed, there is no outcome. *)
Definition outcome_of (r : result unit) : option Outcome :=
  match r with
  | Return _ => Some ProceedNow
  | Raise (TaskDeferred trigger method_name) => Some (SuspendUntil (moment trigger) method_name)
  | Raise _ => None
  end.

Definition decide (self : ElectricityMapsSchedulerOperator) (context : Context)
  (w : World) : option Outcome :=
  outcome_of (fst (run_execute self context w)).

End Operator.

(** ** A scripted host, as the tests build one

    The oracle answers with a canned reply, whatever it is asked, after
    [mock_latency] microseconds; the clock reads [mock_clock]. *)

Record MockWorld := mkMockWorld {
  mock_clock : datetime;
  mock_latency : Z;
  mock_reply : string + OptimizerResponse
}.

#[global] Instance MockHost : Host := {|
  World := MockWorld;
  OracleError := string;
  schedule_execution := fun _ w =>
    (mock_reply w, mkMockWorld (mock_clock w + mock_latency w) (mock_latency w) (mock_reply w));
  datetime_now_utc := mock_clock
|}.

(** A float literal [n / 10^k], as Python reads it. *)
Definition decimal (n : Z) (k : Z) : float := of_ratio n (10 ^ k).

(** [_make_optimizer_response]. *)
Definition make_optimizer_response (t : datetime) : OptimizerResponse :=
  {| optimal_start_time := t;
     optimal_location := (decimal 23522 4, decimal 488566 4);
     optimization_output :=
       {| metric_value_immediate_execution := decimal 100 0;
          metric_value_optimal_execution := decimal 80 0;
          metric_value_start_window_execution := decimal 90 0;
          metric_unit := "gCO2eq/kWh";
          optimization_metric := FLOW_TRACED_CARBON_INTENSITY;
          zone_key := "FR" |} |}.

(** The [operator] fixture: patience 4 h, expected duration 1 h, Paris. *)
Definition paris : coords := (decimal 488566 4, decimal 23522 4).

Definition test_operator : ElectricityMapsSchedulerOperator :=
  {| patience := mk_delta 4 0 0 0;
     expected_duration := mk_delta 1 0 0 0;
     location := paris |}.

Definition test_context : Context := {| execution_date := utc 2024 1 1 10 30 0 0 |}.

(** A world whose clock reads [now] and whose oracle replies [r] at once. *)
Definition world_at (now : datetime) (r : string + OptimizerResponse) : MockWorld :=
  mkMockWorld now 0 r.

(** ** Scenarios *)

(** 2024-01-01T10:30:00Z, the clock of scenarios A to D. *)
Definition half_past_ten : datetime := utc 2024 1 1 10 30 0 0.

(** Scenario A: the oracle recommends 09:00, already past. *)
Definition scenario_A : MockWorld :=
  world_at half_past_ten (inr (make_optimizer_response (utc 2024 1 1 9 0 0 0))).

(** Scenario B: the oracle recommends 14:00, still to come. *)
Definition scenario_B : MockWorld :=
  world_at half_past_ten (inr (make_optimizer_response (utc 2024 1 1 14 0 0 0))).

(** The tie: the oracle recommends the very instant the clock reads. *)
Definition scenario_tie : MockWorld :=
  world_at half_past_ten (inr (make_optimizer_response half_past_ten)).

(** Scenario D: the oracle raises. *)
Definition scenario_D : MockWorld := world_at half_past_ten (inl "transport error"%string).

(** A slow oracle: it recommends 10:30:00.5 but takes a second to answer. *)
Definition scenario_slow : MockWorld :=
  mkMockWorld half_past_ten 1000000 (inr (make_optimizer_response (utc 2024 1 1 10 30 0 500000))).

(** The third test's reference time, 10:45:30. *)
Definition quarter_to_eleven : Context := {| execution_date := utc 2024 1 1 10 45 30 0 |}.

(** Operators outside the spec's preconditions, and at the edges. *)
Definition negative_operator : ElectricityMapsSchedulerOperator :=
  {| patience := mk_delta (-4) 0 0 0;
     expected_duration := mk_delta (-2) 0 0 0;
     location := paris |}.

Definition sub_hour_operator : ElectricityMapsSchedulerOperator :=
  {| patience := mk_delta 4 0 0 0;
     expected_duration := mk_delta 0 59 59 999999;
     location := paris |}.

Definition two_hour_operator : ElectricityMapsSchedulerOperator :=
  {| patience := mk_delta 4 0 0 0;
     expected_duration := mk_delta 2 0 0 0;
     location := paris |}.

(** [timedelta(hours=4772186, microseconds=-1)]: about 544 years. *)
Definition long_operator : ElectricityMapsSchedulerOperator :=
  {| patience := mk_delta 4 0 0 0;
     expected_duration := mk_delta 4772186 0 0 (-1);
     location := paris |}.

(** ** Order and range of floats *)

(** [x <= y] on two floats, by cross-multiplication of their fractions. *)
Definition fleb (x y : float) : bool := fnum x * fden y <=? fnum y * fden x.

(** A normal binary64 number: a significand of 53 bits and an exponent
    between those of [2^-1022] and of the largest finite double. *)
Definition normal_binary64 (x : float) : bool :=
  (2 ^ 52 <=? Z.abs (mant x)) && (Z.abs (mant x) <=? 2 ^ 53)
  && (-1074 <=? expo x) && (expo x <=? 970).

(** ** More scenarios *)

(** A response with the same optimal start time as [make_optimizer_response]
    gives, and everything else different. *)
Definition other_response (t : datetime) : OptimizerResponse :=
  {| optimal_start_time := t;
     optimal_location := (decimal 525200 4, decimal 134050 4);
     optimization_output :=
       {| metric_value_immediate_execution := decimal 350 0;
          metric_value_optimal_execution := decimal 120 0;
          metric_value_start_window_execution := decimal 300 0;
          metric_unit := "gCO2eq/kWh";
          optimization_metric := OTHER_SIGNAL "lifecycle";
          zone_key := "DE" |} |}.

(** Scenario B again, with that other response. *)
Definition scenario_B_other : MockWorld :=
  world_at half_past_ten (inr (other_response (utc 2024 1 1 14 0 0 0))).

(** The state in which scenarios A and B end: the oracle was called once. *)
Definition after_scenario (w : MockWorld) : State :=
  mkState w [schedule_args test_operator (utc 2024 1 1 11 30 0 0)].

(** [timedelta(hours=10**7)]: about 1141 years, a whole number of hours. *)
Definition ten_million_hours : timedelta := mk_delta 10000000 0 0 0.

(** ** A [pendulum.DateTime] as [execution_date]

    Airflow puts a [pendulum.DateTime] under [execution_date].  Its [+]
    with a plain [timedelta] is [self.add(seconds=delta.total_seconds())]:
    the span goes through a float number of seconds, which pendulum splits
    into days, hours, minutes and seconds (exactly, on floats) and hands to
    [timedelta(...)]; the result is added by the standard library.  Pendulum
    is not among the sources; this is its addition for a datetime in UTC. *)

(** Nearest integer to [n / d] ([0 < d]), ties to even, for either sign. *)
Definition round_half_even_signed (n d : Z) : Z :=
  if 0 <=? n then round_half_even n d else - round_half_even (- n) d.

(** [timedelta(seconds=x)] for a float [x], in microseconds: the whole
    seconds are taken exactly ([modf]); the fraction is multiplied by
    [10**6] in double precision and rounded to the nearest integer, ties to
    even. *)
Definition microseconds_of_float_seconds (x : float) : Z :=
  let whole := int_of_float x in
  let frac := fnum x - whole * fden x in
  let scaled := of_ratio (frac * 10 ^ 6) (fden x) in
  whole * 10 ^ 6 + round_half_even_signed (fnum scaled) (fden scaled).

(** [pendulum.DateTime + timedelta]; [None] is the [OverflowError] of the
    standard library's addition at the end. *)
Definition pendulum_add (t : datetime) (d : timedelta) : option datetime :=
  let t' := t + microseconds_of_float_seconds (total_seconds d) in
  if in_range t' then Some t' else None.

(** [execute], for whichever class of datetime [execution_date] is:
    [plus] is that class's [+].  With [datetime_add] it is [execute]
    itself. *)

Section OperatorOn.
Context {H : Host}.
Local Open Scope py_scope.
Variable plus : datetime -> timedelta -> option datetime.

Definition execute_on (self : ElectricityMapsSchedulerOperator) (context : Context) : M unit :=
  deadline <- match plus (execution_date context) (expected_duration self) with
              | Some t' => ret t'
              | None => raise OverflowError
              end ;;
  optimal_execution <- call_schedule_execution (schedule_args self deadline) ;;
  now <- now_utc ;;
  if optimal_start_time optimal_execution <? now then ret tt
  else defer (mkDateTimeTrigger (optimal_start_time optimal_execution) true)
             "execute_complete".

Definition run_execute_on (self : ElectricityMapsSchedulerOperator) (context : Context)
  (w : World) : result unit * State :=
  execute_on self context (mkState w []).

End OperatorOn.

(** ** Scenarios at the edges of the range *)

(** [timedelta.max] truncated to days: no deadline is that far. *)
Definition overflowing_operator : ElectricityMapsSchedulerOperator :=
  {| patience := mk_delta 4 0 0 0;
     expected_duration := mk_timedelta 999999999 0 0;
     location := paris |}.

(** The span from 2024-01-01T10:30:00Z to [datetime.max]. *)
Definition until_the_last_microsecond : timedelta :=
  timedelta_of_microseconds (datetime_max - utc 2024 1 1 10 30 0 0).

(** An operator whose expected duration is that span. *)
Definition edge_operator : ElectricityMapsSchedulerOperator :=
  {| patience := mk_delta 4 0 0 0;
     expected_duration := until_the_last_microsecond;
     location := paris |}.

(* ===================================================================== *)
(** * Part II: properties *)
(* ===================================================================== *)

(** ** Rounding to binary64 *)

Section Rounding.

Lemma pow2_max_pos (e : Z) : 0 < 2 ^ Z.max 0 e.
Proof. apply Z.pow_pos_nonneg; lia. Qed.

Lemma fden_pos (x : float) : 0 < fden x.
Proof. apply pow2_max_pos. Qed.

Lemma scaled_den_pos (q e : Z) : 0 < q -> 0 < scaled_den q e.
Proof. intros Hq. unfold scaled_den. pose proof (pow2_max_pos e). nia. Qed.

(** The rounded quotient is the floor or the floor plus one, and it is
    within half a unit of the exact quotient. *)
Lemma round_half_even_spec (n d : Z) :
  0 <= n -> 0 < d ->
  n / d <= round_half_even n d <= n / d + 1 /\
  - d <= 2 * (round_half_even n d * d - n) <= d.
Proof.
  intros Hn Hd. unfold round_half_even.
  pose proof (Z.div_mod n d ltac:(lia)) as E.
  pose proof (Z.mod_pos_bound n d Hd) as B.
  destruct (Z.ltb_spec (2 * (n mod d)) d);
    [| destruct (Z.ltb_spec d (2 * (n mod d))); [| destruct (Z.even (n / d))]];
    split; nia.
Qed.

Lemma round_half_even_nonneg (n d : Z) : 0 <= n -> 0 < d -> 0 <= round_half_even n d.
Proof.
  intros Hn Hd. pose proof (round_half_even_spec n d Hn Hd) as [[L _] _].
  pose proof (Z.div_pos n d Hn Hd). lia.
Qed.

(** The scaled quotient has at least 53 significant bits. *)
Lemma binade_lower (a q : Z) :
  0 < a -> 0 < q ->
  2 ^ 52 * scaled_den q (binade a q) <= scaled_num a (binade a q).
Proof.
  intros Ha Hq. unfold binade.
  set (e0 := Z.log2 a - Z.log2 q - 52).
  destruct (Z.leb_spec (2 ^ 52 * scaled_den q e0) (scaled_num a e0)) as [L | L]; [exact L |].
  clear L.
  pose proof (Z.log2_nonneg a) as La. pose proof (Z.log2_nonneg q) as Lq.
  destruct (Z.log2_spec a Ha) as [A1 _]. destruct (Z.log2_spec q Hq) as [_ Q2].
  unfold scaled_den, scaled_num.
  set (e := e0 - 1).
  assert (Hq' : q <= 2 ^ (Z.log2 q + 1)) by lia.
  rewrite Z.add_1_r in *.
  destruct (Z_le_gt_dec 0 e) as [He | He].
  - rewrite (Z.max_r 0 e), (Z.max_l 0 (- e)) by lia.
    rewrite Z.pow_0_r, Z.mul_1_r.
    assert (E : 2 ^ Z.log2 a = 2 ^ 52 * (2 ^ Z.succ (Z.log2 q) * 2 ^ e)).
    { rewrite <- !Z.pow_add_r by lia. f_equal. subst e e0. lia. }
    pose proof (pow2_max_pos e) as P. rewrite Z.max_r in P by lia.
    nia.
  - rewrite (Z.max_l 0 e), (Z.max_r 0 (- e)) by lia.
    rewrite Z.pow_0_r, Z.mul_1_r.
    assert (E : 2 ^ Z.log2 a * 2 ^ (- e) = 2 ^ 52 * 2 ^ Z.succ (Z.log2 q)).
    { rewrite <- !Z.pow_add_r by lia. f_equal. subst e e0. lia. }
    pose proof (pow2_max_pos (- e)) as P. rewrite Z.max_r in P by lia.
    nia.
Qed.

Lemma binade_upper (a q : Z) :
  0 < a -> 0 < q ->
  scaled_num a (binade a q) < 2 ^ 53 * scaled_den q (binade a q).
Proof.
  intros Ha Hq. unfold binade.
  set (e0 := Z.log2 a - Z.log2 q - 52).
  unfold scaled_den, scaled_num.
  destruct (Z.leb_spec (2 ^ 52 * (q * 2 ^ Z.max 0 e0)) (a * 2 ^ Z.max 0 (- e0))) as [_ | L].
  - pose proof (Z.log2_nonneg a) as La. pose proof (Z.log2_nonneg q) as Lq.
    destruct (Z.log2_spec a Ha) as [_ A2]. destruct (Z.log2_spec q Hq) as [Q1 _].
    destruct (Z_le_gt_dec 0 e0) as [He | He].
    + rewrite (Z.max_r 0 e0), (Z.max_l 0 (- e0)) by lia.
      rewrite Z.pow_0_r, Z.mul_1_r.
      assert (E : 2 ^ Z.succ (Z.log2 a) = 2 ^ 53 * (2 ^ Z.log2 q * 2 ^ e0)).
      { rewrite <- !Z.pow_add_r by lia. f_equal. subst e0. lia. }
      pose proof (pow2_max_pos e0) as P. rewrite Z.max_r in P by lia.
      nia.
    + rewrite (Z.max_l 0 e0), (Z.max_r 0 (- e0)) by lia.
      rewrite Z.pow_0_r, Z.mul_1_r.
      assert (E : 2 ^ Z.succ (Z.log2 a) * 2 ^ (- e0) = 2 ^ 53 * 2 ^ Z.log2 q).
      { rewrite <- !Z.pow_add_r by lia. f_equal. subst e0. lia. }
      pose proof (pow2_max_pos (- e0)) as P. rewrite Z.max_r in P by lia.
      nia.
  - destruct (Z_le_gt_dec 1 e0) as [He | He].
    + rewrite (Z.max_r 0 e0), (Z.max_l 0 (- e0)) in L by lia.
      rewrite (Z.max_r 0 (e0 - 1)), (Z.max_l 0 (- (e0 - 1))) by lia.
      replace e0 with (Z.succ (e0 - 1)) in L at 1 by lia.
      rewrite Z.pow_succ_r in L by lia.
      change (2 ^ 53) with (2 * 2 ^ 52). lia.
    + rewrite (Z.max_l 0 e0), (Z.max_r 0 (- e0)) in L by lia.
      rewrite (Z.max_l 0 (e0 - 1)), (Z.max_r 0 (- (e0 - 1))) by lia.
      replace (- (e0 - 1)) with (Z.succ (- e0)) by lia.
      rewrite Z.pow_succ_r by lia.
      change (2 ^ 53) with (2 * 2 ^ 52). lia.
Qed.

(** A rounded positive quotient is a 53-bit significand. *)
Lemma round_pos_mant (a q : Z) :
  0 < a -> 0 < q -> 2 ^ 52 <= mant (round_pos a q) <= 2 ^ 53.
Proof.
  intros Ha Hq. unfold round_pos; cbn [mant].
  pose proof (binade_lower a q Ha Hq) as L. pose proof (binade_upper a q Ha Hq) as U.
  set (e := binade a q) in *.
  pose proof (scaled_den_pos q e Hq) as Hd.
  assert (Hn : 0 <= scaled_num a e) by (unfold scaled_num; pose proof (pow2_max_pos (- e)); nia).
  pose proof (round_half_even_spec _ _ Hn Hd) as [[F1 F2] _].
  assert (2 ^ 52 <= scaled_num a e / scaled_den q e)
    by (apply Z.div_le_lower_bound; lia).
  assert (scaled_num a e / scaled_den q e < 2 ^ 53)
    by (apply Z.div_lt_upper_bound; lia).
  lia.
Qed.

(** The value of [round_pos a q], as a fraction, against [a / q]. *)
Lemma round_pos_frac (a q : Z) :
  fnum (round_pos a q) * q - a * fden (round_pos a q)
  = round_half_even (scaled_num a (binade a q)) (scaled_den q (binade a q))
    * scaled_den q (binade a q) - scaled_num a (binade a q).
Proof. unfold round_pos, fnum, fden, scaled_num, scaled_den; cbn [mant expo]. ring. Qed.

(** Relative error of one rounding: at most [2^-53]. *)
Lemma round_pos_error (a q : Z) :
  0 < a -> 0 < q ->
  2 ^ 53 * Z.abs (fnum (round_pos a q) * q - a * fden (round_pos a q))
  <= a * fden (round_pos a q).
Proof.
  intros Ha Hq. rewrite round_pos_frac.
  pose proof (binade_lower a q Ha Hq) as L.
  set (e := binade a q) in *.
  pose proof (scaled_den_pos q e Hq) as Hd.
  assert (Hn : 0 <= scaled_num a e) by (unfold scaled_num; pose proof (pow2_max_pos (- e)); nia).
  pose proof (round_half_even_spec _ _ Hn Hd) as [_ B].
  replace (a * fden (round_pos a q)) with (scaled_num a e) by reflexivity.
  change (2 ^ 53) with (2 * 2 ^ 52). lia.
Qed.

Lemma round_pos_nonneg (a q : Z) : 0 < a -> 0 < q -> 0 <= fnum (round_pos a q).
Proof.
  intros Ha Hq. pose proof (round_pos_mant a q Ha Hq).
  unfold fnum. pose proof (pow2_max_pos (expo (round_pos a q))). nia.
Qed.

(** Rounding never goes below an integer (of at most 53 bits) that the
    exact quotient has reached: such integers are doubles. *)
Lemma round_pos_ge_int (a q k : Z) :
  0 < a -> 0 < q -> 0 <= k <= 2 ^ 53 -> k * q <= a ->
  k * fden (round_pos a q) <= fnum (round_pos a q).
Proof.
  intros Ha Hq Hk Hle.
  pose proof (round_pos_mant a q Ha Hq) as [M _].
  pose proof (binade_lower a q Ha Hq) as L.
  unfold round_pos, fnum, fden in *; cbn [mant expo] in *.
  set (e := binade a q) in *.
  pose proof (scaled_den_pos q e Hq) as Hd.
  assert (Hn : 0 <= scaled_num a e) by (unfold scaled_num; pose proof (pow2_max_pos (- e)); nia).
  pose proof (round_half_even_spec _ _ Hn Hd) as [[F _] _].
  destruct (Z_le_gt_dec e 0) as [He | He].
  - rewrite (Z.max_l 0 e) by lia. rewrite Z.pow_0_r, Z.mul_1_r.
    assert (k * 2 ^ Z.max 0 (- e) <= scaled_num a e / scaled_den q e).
    { apply Z.div_le_lower_bound; [lia |].
      unfold scaled_num, scaled_den. rewrite (Z.max_l 0 e) by lia.
      rewrite Z.pow_0_r, Z.mul_1_r. pose proof (pow2_max_pos (- e)). nia. }
    lia.
  - rewrite (Z.max_l 0 (- e)) by lia. rewrite Z.pow_0_r, Z.mul_1_r.
    rewrite (Z.max_r 0 e) by lia.
    assert (2 <= 2 ^ e).
    { replace e with (Z.succ (e - 1)) by lia. rewrite Z.pow_succ_r by lia.
      pose proof (Z.pow_pos_nonneg 2 (e - 1)). lia. }
    change (2 ^ 53) with (2 * 2 ^ 52) in Hk. nia.
Qed.

End Rounding.

(** ** [int(td.total_seconds() / 3600)] *)

Section DurationHours.

Lemma duration_hours_us (d : timedelta) :
  duration_hours d = hours_of_us (to_microseconds d).
Proof. reflexivity. Qed.

Lemma of_ratio_pos (p q : Z) : 0 < p -> of_ratio p q = round_pos p q.
Proof. destruct p; [lia | reflexivity | lia]. Qed.

Lemma fneg_involutive (x : float) : fneg (fneg x) = x.
Proof. destruct x as [m e]. unfold fneg; cbn. now rewrite Z.opp_involutive. Qed.

Lemma of_ratio_opp (p q : Z) : of_ratio (- p) q = fneg (of_ratio p q).
Proof. destruct p; cbn; [reflexivity | reflexivity | now rewrite fneg_involutive]. Qed.

Lemma fnum_fneg (x : float) : fnum (fneg x) = - fnum x.
Proof. unfold fnum, fneg; cbn. ring. Qed.

Lemma fden_fneg (x : float) : fden (fneg x) = fden x.
Proof. reflexivity. Qed.

(** The computation is odd: negating the duration negates the result. *)
Lemma hours_of_us_opp (us : Z) : hours_of_us (- us) = - hours_of_us us.
Proof.
  unfold hours_of_us, fdiv_int, int_of_float.
  rewrite of_ratio_opp, fnum_fneg, fden_fneg, of_ratio_opp, fnum_fneg, fden_fneg.
  apply Z.quot_opp_l. pose proof (fden_pos (of_ratio (fnum (of_ratio us (10 ^ 6)))
    (fden (of_ratio us (10 ^ 6)) * 3600))). lia.
Qed.

Lemma hours_of_us_0 : hours_of_us 0 = 0.
Proof. reflexivity. Qed.

(** The two roundings of a positive duration, named. *)
Lemma hours_of_us_pos (us : Z) :
  0 < us ->
  let f1 := round_pos us (10 ^ 6) in
  let f2 := round_pos (fnum f1) (fden f1 * 3600) in
  0 < fnum f1 /\ hours_of_us us = fnum f2 / fden f2.
Proof.
  intros Hus f1 f2.
  assert (P1 : 0 < fnum f1).
  { pose proof (round_pos_mant us (10 ^ 6) Hus ltac:(lia)) as [M _].
    unfold fnum. fold f1 in M. pose proof (pow2_max_pos (expo f1)).
    assert (0 < 2 ^ 52) by lia. nia. }
  split; [exact P1 |].
  unfold hours_of_us, fdiv_int, int_of_float.
  rewrite (of_ratio_pos us) by exact Hus. fold f1.
  rewrite (of_ratio_pos (fnum f1)) by exact P1. fold f2.
  pose proof (fden_pos f1). pose proof (fden_pos f2).
  apply Z.quot_div_nonneg; [| lia].
  apply round_pos_nonneg; lia.
Qed.

(** A non-negative duration never yields a negative number of hours. *)
Lemma hours_of_us_nonneg (us : Z) : 0 <= us -> 0 <= hours_of_us us.
Proof.
  intros Hus. destruct (Z.eq_dec us 0) as [-> | Hnz]; [rewrite hours_of_us_0; lia |].
  destruct (hours_of_us_pos us ltac:(lia)) as [P1 ->].
  set (f1 := round_pos us (10 ^ 6)) in *.
  set (f2 := round_pos (fnum f1) (fden f1 * 3600)).
  pose proof (fden_pos f1). pose proof (fden_pos f2).
  apply Z.div_pos; [| lia]. apply round_pos_nonneg; lia.
Qed.

(** Below 2^52 microseconds the two roundings cannot reach the next whole
    hour, and they never fall below the current one: the result is the
    exact floor. *)
Lemma hours_of_us_floor (us : Z) :
  0 <= us -> 3600000000 * (us / 3600000000 + 1) <= 2 ^ 52 ->
  hours_of_us us = us / 3600000000.
Proof.
  intros Hus Hb.
  destruct (Z.eq_dec us 0) as [-> | Hnz]; [reflexivity |].
  destruct (hours_of_us_pos us ltac:(lia)) as [P1 ->].
  set (f1 := round_pos us (10 ^ 6)) in *.
  set (f2 := round_pos (fnum f1) (fden f1 * 3600)).
  set (k := us / 3600000000) in *.
  pose proof (fden_pos f1) as D1. pose proof (fden_pos f2) as D2.
  pose proof (Z.div_mod us 3600000000 ltac:(lia)) as E.
  pose proof (Z.mod_pos_bound us 3600000000 ltac:(lia)) as R.
  fold k in E.
  assert (Hk : 0 <= k) by (apply Z.div_pos; lia).
  assert (Q1 : 0 < fden f1 * 3600) by lia.
  cut (k * fden f2 <= fnum f2 < (k + 1) * fden f2).
  { generalize (fnum f2) (fden f2) D2. clear. intros n d Hd Hn.
    symmetry. apply Z.div_unique_pos with (r := n - k * d); lia. }
  split.
  - (* never below the whole hour already reached *)
    pose proof (round_pos_ge_int us (10 ^ 6) (3600 * k) ltac:(lia) ltac:(lia)
                  ltac:(lia) ltac:(lia)) as G1. fold f1 in G1.
    pose proof (round_pos_ge_int (fnum f1) (fden f1 * 3600) k P1 Q1
                  ltac:(lia) ltac:(lia)) as G2. fold f2 in G2.
    lia.
  - (* never up to the next whole hour *)
    pose proof (round_pos_error us (10 ^ 6) ltac:(lia) ltac:(lia)) as E1. fold f1 in E1.
    pose proof (round_pos_error (fnum f1) (fden f1 * 3600) P1 Q1) as E2. fold f2 in E2.
    assert (B1 : 2 ^ 53 * (fnum f1 * 10 ^ 6) <= (2 ^ 53 + 1) * (us * fden f1)) by lia.
    assert (B2 : 2 ^ 53 * (fnum f2 * (fden f1 * 3600)) <= (2 ^ 53 + 1) * (fnum f1 * fden f2))
      by lia.
    destruct (Z_lt_ge_dec (fnum f2) ((k + 1) * fden f2)) as [? | Hge]; [lia | exfalso].
    set (C := 3600000000 * (k + 1)) in *.
    assert (B3 : fden f1 * (2 ^ 106 * (3600000000 * fnum f2))
                 <= fden f1 * ((2 ^ 53 + 1) * (2 ^ 53 + 1) * (us * fden f2))).
    { apply Z.le_trans with ((2 ^ 53 + 1) * fden f2 * (2 ^ 53 * (fnum f1 * 10 ^ 6))).
      - replace (fden f1 * (2 ^ 106 * (3600000000 * fnum f2)))
          with (2 ^ 53 * 10 ^ 6 * (2 ^ 53 * (fnum f2 * (fden f1 * 3600))))
          by (change (2 ^ 106) with (2 ^ 53 * 2 ^ 53); change (10 ^ 6) with 1000000; ring).
        replace ((2 ^ 53 + 1) * fden f2 * (2 ^ 53 * (fnum f1 * 10 ^ 6)))
          with (2 ^ 53 * 10 ^ 6 * ((2 ^ 53 + 1) * (fnum f1 * fden f2))) by ring.
        apply Z.mul_le_mono_nonneg_l; [lia | exact B2].
      - replace (fden f1 * ((2 ^ 53 + 1) * (2 ^ 53 + 1) * (us * fden f2)))
          with ((2 ^ 53 + 1) * fden f2 * ((2 ^ 53 + 1) * (us * fden f1))) by ring.
        apply Z.mul_le_mono_nonneg_l; [lia | exact B1]. }
    apply Z.mul_le_mono_pos_l in B3; [| exact D1].
    assert (B4 : fden f2 * (2 ^ 106 * C) <= fden f2 * ((2 ^ 53 + 1) * (2 ^ 53 + 1) * (C - 1))).
    { apply Z.le_trans with (2 ^ 106 * (3600000000 * fnum f2)).
      - replace (fden f2 * (2 ^ 106 * C))
          with (2 ^ 106 * (3600000000 * ((k + 1) * fden f2))) by (subst C; ring).
        apply Z.mul_le_mono_nonneg_l; [lia |]. lia.
      - eapply Z.le_trans; [exact B3 |].
        replace (fden f2 * ((2 ^ 53 + 1) * (2 ^ 53 + 1) * (C - 1)))
          with ((2 ^ 53 + 1) * (2 ^ 53 + 1) * ((C - 1) * fden f2)) by ring.
        apply Z.mul_le_mono_nonneg_l; [lia |].
        apply Z.mul_le_mono_nonneg_r; [lia |]. subst C. lia. }
    apply Z.mul_le_mono_pos_l in B4; [| exact D2].
    change (2 ^ 106) with 81129638414606681695789005144064 in B4.
    change (2 ^ 53) with 9007199254740992 in B4.
    change (2 ^ 52) with 4503599627370496 in Hb.
    lia.
Qed.

(** Below 10^6 hours, in either direction, the value is the duration
    truncated toward zero to whole hours. *)
Lemma hours_of_us_trunc (us : Z) :
  Z.abs us < 3600000000 * 1000000 ->
  hours_of_us us = Z.quot us 3600000000.
Proof.
  intros Hb.
  assert (P : forall v, 0 <= v < 3600000000 * 1000000 -> hours_of_us v = v / 3600000000).
  { intros v [V1 V2]. apply hours_of_us_floor; [exact V1 |].
    assert (v / 3600000000 < 1000000) by (apply Z.div_lt_upper_bound; lia).
    change (2 ^ 52) with 4503599627370496. lia. }
  destruct (Z_le_gt_dec 0 us) as [Hs | Hs].
  - rewrite P by lia. symmetry. apply Z.quot_div_nonneg; lia.
  - replace us with (- - us) at 1 by lia.
    rewrite hours_of_us_opp, P by lia.
    rewrite <- (Z.quot_div_nonneg (- us)) by lia.
    rewrite Z.quot_opp_l by lia. lia.
Qed.

(** A duration of less than an hour never yields a positive value, and
    yields 0 when it is also more than minus one hour. *)
Lemma hours_of_us_sub_hour (us : Z) :
  us < 3600000000 ->
  hours_of_us us <= 0 /\ (-3600000000 < us -> hours_of_us us = 0).
Proof.
  intros Hlt. split.
  - destruct (Z_le_gt_dec 0 us) as [Hs | Hs].
    + rewrite hours_of_us_trunc by lia. rewrite Z.quot_small; lia.
    + pose proof (hours_of_us_nonneg (- us) ltac:(lia)) as N.
      rewrite hours_of_us_opp in N. lia.
  - intros Hgt. rewrite hours_of_us_trunc by lia.
    apply Z.quot_small_iff; lia.
Qed.

End DurationHours.

(** ** The operator's [execute] *)

Section Execute.
Context {H : Host}.

(** Every path through [execute], at once. *)
Lemma run_execute_cases (self : ElectricityMapsSchedulerOperator) (context : Context) (w : World) :
  run_execute self context w =
  match datetime_add (execution_date context) (expected_duration self) with
  | None => (Raise OverflowError, mkState w [])
  | Some deadline =>
      let args := schedule_args self deadline in
      match schedule_execution args w with
      | (inl e, w') => (Raise (Propagated e), mkState w' [args])
      | (inr r, w') =>
          if optimal_start_time r <? datetime_now_utc w'
          then (Return tt, mkState w' [args])
          else (Raise (TaskDeferred (mkDateTimeTrigger (optimal_start_time r) true)
                         "execute_complete"), mkState w' [args])
      end
  end.
Proof.
  unfold run_execute, execute, bind, add_or_overflow, call_schedule_execution, now_utc.
  destruct (datetime_add _ _) as [deadline |]; cbn; [| reflexivity].
  destruct (schedule_execution _ w) as [[e | r] w']; cbn; [reflexivity |].
  destruct (_ <? _); reflexivity.
Qed.

(** The calls made by one run: none when the deadline overflows, else one. *)
Lemma oracle_calls_execute (self : ElectricityMapsSchedulerOperator) (context : Context) (w : World) :
  oracle_calls (snd (run_execute self context w)) =
  match datetime_add (execution_date context) (expected_duration self) with
  | None => []
  | Some deadline => [schedule_args self deadline]
  end.
Proof.
  rewrite run_execute_cases.
  destruct (datetime_add _ _) as [deadline |]; cbn; [| reflexivity].
  destruct (schedule_execution _ w) as [[e | r] w']; cbn; [reflexivity |].
  destruct (_ <? _); reflexivity.
Qed.

Lemma datetime_add_Some (t : datetime) (d : timedelta) (t' : datetime) :
  datetime_add t d = Some t' -> t' = t + to_microseconds d.
Proof.
  unfold datetime_add. destruct (in_range _); intros E; inversion E; reflexivity.
Qed.

(** A call made by [execute] is the one built from the operator's fields
    and the exact sum of the reference time and the expected duration. *)
Lemma In_oracle_calls (self : ElectricityMapsSchedulerOperator) (context : Context) (w : World)
  (args : ScheduleArgs) :
  In args (oracle_calls (snd (run_execute self context w))) ->
  args = schedule_args self (execution_date context + to_microseconds (expected_duration self)).
Proof.
  rewrite oracle_calls_execute.
  destruct (datetime_add _ _) as [deadline |] eqn:E; cbn; [| tauto].
  apply datetime_add_Some in E. intros [<- | []]. now subst.
Qed.

End Execute.

(** ** The claims *)

Section Claims.
Context {H : Host}.

(** C1. Whenever the oracle returns an optimal start time that is not
    before the clock reading taken after the call, [execute] defers: it
    raises [TaskDeferred] with a [DateTimeTrigger] whose moment is the
    oracle's optimal start time itself, and with [execute_complete] as the
    method to resume at.  The test is a strict [<], so an optimal start time
    equal to the clock reading defers until that very instant. *)
Theorem execute_defers_until_optimal_start
  (self : ElectricityMapsSchedulerOperator) (context : Context) (w w' : World)
  (deadline : datetime) (r : OptimizerResponse) :
  datetime_add (execution_date context) (expected_duration self) = Some deadline ->
  schedule_execution (schedule_args self deadline) w = (inr r, w') ->
  datetime_now_utc w' <= optimal_start_time r ->
  run_execute self context w =
    (Raise (TaskDeferred (mkDateTimeTrigger (optimal_start_time r) true) "execute_complete"),
     mkState w' [schedule_args self deadline]) /\
  decide self context w = Some (SuspendUntil (optimal_start_time r) "execute_complete") /\
  (optimal_start_time r = datetime_now_utc w' ->
   decide self context w = Some (SuspendUntil (datetime_now_utc w') "execute_complete")).
Proof.
  intros Hd Ho Hle.
  assert (E : run_execute self context w =
    (Raise (TaskDeferred (mkDateTimeTrigger (optimal_start_time r) true) "execute_complete"),
     mkState w' [schedule_args self deadline])).
  { rewrite run_execute_cases, Hd. cbn zeta. rewrite Ho.
    destruct (Z.ltb_spec (optimal_start_time r) (datetime_now_utc w')); [lia | reflexivity]. }
  split; [exact E |].
  assert (D : decide self context w = Some (SuspendUntil (optimal_start_time r) "execute_complete"))
    by (unfold decide; rewrite E; reflexivity).
  split; [exact D |].
  intros Heq. rewrite D, Heq. reflexivity.
Qed.

(** C2. Whenever the oracle returns an optimal start time strictly before
    the clock reading taken after the call, [execute] returns [None] at
    once: the outcome is [ProceedNow] and nothing is deferred. *)
Theorem execute_proceeds_when_optimal_start_passed
  (self : ElectricityMapsSchedulerOperator) (context : Context) (w w' : World)
  (deadline : datetime) (r : OptimizerResponse) :
  datetime_add (execution_date context) (expected_duration self) = Some deadline ->
  schedule_execution (schedule_args self deadline) w = (inr r, w') ->
  optimal_start_time r < datetime_now_utc w' ->
  run_execute self context w = (Return tt, mkState w' [schedule_args self deadline]) /\
  decide self context w = Some ProceedNow.
Proof.
  intros Hd Ho Hlt.
  assert (E : run_execute self context w = (Return tt, mkState w' [schedule_args self deadline])).
  { rewrite run_execute_cases, Hd. cbn zeta. rewrite Ho.
    destruct (Z.ltb_spec (optimal_start_time r) (datetime_now_utc w')); [reflexivity | lia]. }
  split; [exact E |]. unfold decide. rewrite E. reflexivity.
Qed.

(** C6. The patience has no influence: two operators that differ only in
    their patience make the same oracle calls, with the same arguments, and
    end in the same result and state. *)
Theorem patience_is_ignored
  (patience1 patience2 expected : timedelta) (loc : coords) (context : Context) (w : World) :
  run_execute (mkOperator patience1 expected loc) context w
  = run_execute (mkOperator patience2 expected loc) context w /\
  decide (mkOperator patience1 expected loc) context w
  = decide (mkOperator patience2 expected loc) context w.
Proof. split; reflexivity. Qed.

(** C7. With the reference time fixed, the deadline sent to the oracle does
    not decrease when the span it is computed from (the expected duration)
    grows; the patience, which plays no part, may vary freely. *)
Theorem deadline_monotone_in_span
  (self1 self2 : ElectricityMapsSchedulerOperator) (context : Context) (w1 w2 : World)
  (args1 args2 : ScheduleArgs) :
  to_microseconds (expected_duration self1) <= to_microseconds (expected_duration self2) ->
  In args1 (oracle_calls (snd (run_execute self1 context w1))) ->
  In args2 (oracle_calls (snd (run_execute self2 context w2))) ->
  end_datetime args1 <= end_datetime args2.
Proof.
  intros Hle H1 H2. apply In_oracle_calls in H1, H2. subst. cbn. lia.
Qed.

(** C8. If the oracle raises, [execute] raises that same error: the oracle
    was called once and not again, nothing is deferred, and there is no
    outcome. *)
Theorem oracle_error_propagates
  (self : ElectricityMapsSchedulerOperator) (context : Context) (w w' : World)
  (deadline : datetime) (e : OracleError) :
  datetime_add (execution_date context) (expected_duration self) = Some deadline ->
  schedule_execution (schedule_args self deadline) w = (inl e, w') ->
  run_execute self context w = (Raise (Propagated e), mkState w' [schedule_args self deadline]) /\
  decide self context w = None.
Proof.
  intros Hd Ho.
  assert (E : run_execute self context w
              = (Raise (Propagated e), mkState w' [schedule_args self deadline])).
  { rewrite run_execute_cases, Hd. cbn zeta. rewrite Ho. reflexivity. }
  split; [exact E |]. unfold decide. rewrite E. reflexivity.
Qed.

(** C10. Every call [execute] makes to the oracle carries exactly one
    location, the configured (latitude, longitude) pair. *)
Theorem oracle_gets_the_single_location
  (self : ElectricityMapsSchedulerOperator) (context : Context) (w : World)
  (args : ScheduleArgs) :
  In args (oracle_calls (snd (run_execute self context w))) ->
  locations args = [location self] /\ List.length (locations args) = 1%nat.
Proof. intros Hin. apply In_oracle_calls in Hin. subst args. split; reflexivity. Qed.

End Claims.

(** ** The model on concrete values *)

Section Checks.

(** [0.1 == float.fromhex("0x1.999999999999ap-4")]. *)
Example decimal_tenth : decimal 1 1 = mkFloat 7205759403792794 (-56).
Proof. reflexivity. Qed.

(** [timedelta(minutes=90).total_seconds() / 3600 == 1.5]. *)
Example ninety_minutes :
  fdiv_int (total_seconds (mk_delta 0 90 0 0)) 3600 = mkFloat 6755399441055744 (-52)
  /\ duration_hours (mk_delta 0 90 0 0) = 1.
Proof. split; reflexivity. Qed.

Example mk_delta_normalises : mk_delta (-2) 0 0 0 = mk_timedelta (-1) 79200 0.
Proof. reflexivity. Qed.

Example utc_max : datetime_max = 3652059 * 86400000000 - 1.
Proof. reflexivity. Qed.

(** [datetime(2024, 1, 1).toordinal() == 738886]. *)
Example ordinal_2024 : ymd2ord 2024 1 1 = 738886.
Proof. reflexivity. Qed.

(** Scenario A and scenario B of the spec. *)
Example scenario_A_proceeds : decide test_operator test_context scenario_A = Some ProceedNow.
Proof. reflexivity. Qed.

Example scenario_B_suspends :
  decide test_operator test_context scenario_B
  = Some (SuspendUntil (utc 2024 1 1 14 0 0 0) "execute_complete").
Proof. reflexivity. Qed.

(** The clock is read after the oracle has answered. *)
Example scenario_slow_proceeds : decide test_operator test_context scenario_slow = Some ProceedNow.
Proof. reflexivity. Qed.

(** A deadline beyond year 9999 raises before the oracle is called. *)
Example overflow_before_oracle :
  run_execute (mkOperator (mk_delta 4 0 0 0) (mk_timedelta 999999999 0 0) paris)
    test_context scenario_A
  = (Raise OverflowError, mkState scenario_A []).
Proof. reflexivity. Qed.

End Checks.

(** ** Witnesses and counterexamples *)

Section Witnesses.

Lemma execute_defers_until_optimal_start_witness :
  run_execute test_operator test_context scenario_tie =
    (Raise (TaskDeferred (mkDateTimeTrigger half_past_ten true) "execute_complete"),
     mkState scenario_tie [schedule_args test_operator (utc 2024 1 1 11 30 0 0)]) /\
  decide test_operator test_context scenario_tie
  = Some (SuspendUntil half_past_ten "execute_complete") /\
  (half_past_ten = half_past_ten ->
   decide test_operator test_context scenario_tie
   = Some (SuspendUntil half_past_ten "execute_complete")).
Proof.
  apply (execute_defers_until_optimal_start (H := MockHost)
           test_operator test_context scenario_tie scenario_tie
           (utc 2024 1 1 11 30 0 0) (make_optimizer_response half_past_ten)).
  - reflexivity.
  - reflexivity.
  - vm_compute. discriminate.
Defined.

Lemma execute_proceeds_when_optimal_start_passed_witness :
  run_execute test_operator test_context scenario_A
  = (Return tt, mkState scenario_A [schedule_args test_operator (utc 2024 1 1 11 30 0 0)]) /\
  decide test_operator test_context scenario_A = Some ProceedNow.
Proof.
  apply (execute_proceeds_when_optimal_start_passed (H := MockHost)
           test_operator test_context scenario_A scenario_A
           (utc 2024 1 1 11 30 0 0) (make_optimizer_response (utc 2024 1 1 9 0 0 0))).
  - reflexivity.
  - reflexivity.
  - reflexivity.
Defined.

(** Against C3 as stated: a request whose patience and expected duration
    are both negative is not rejected; the oracle is called and the run
    ends in [ProceedNow]. *)
Lemma negative_request_reaches_oracle :
  to_microseconds (patience negative_operator) <= 0 /\
  to_microseconds (expected_duration negative_operator) <= 0 /\
  oracle_calls (snd (run_execute negative_operator test_context scenario_A))
  = [ {| expected_duration_hours := -2;
         end_datetime := utc 2024 1 1 8 30 0 0;
         optimization_signal := DEFAULT_OPTIMIZATION_SIGNAL;
         locations := [paris] |} ] /\
  oracle_calls (snd (run_execute negative_operator test_context scenario_A)) <> [] /\
  decide negative_operator test_context scenario_A = Some ProceedNow.
Proof.
  split; [vm_compute; discriminate |].
  split; [vm_compute; discriminate |].
  split; [reflexivity |].
  split; [discriminate | reflexivity].
Qed.

(** C4. The number of hours is meant to be the expected duration truncated
    to whole hours, and one input shows it is not always: for
    [timedelta(hours=4772186, microseconds=-1)], a well-formed duration,
    [execute] asks the oracle for 4772186 hours, while the duration truncated
    to whole hours is 4772185.  The two roundings of
    [int(total_seconds() / 3600)] reach the next whole hour. *)
Lemma long_duration_not_truncated :
  wf_timedelta (expected_duration long_operator) /\
  map expected_duration_hours
    (oracle_calls (snd (run_execute long_operator test_context scenario_A))) = [4772186] /\
  Z.quot (to_microseconds (expected_duration long_operator)) 3600000000 = 4772185 /\
  to_microseconds (expected_duration long_operator) / 3600000000 = 4772185.
Proof.
  split; [unfold wf_timedelta; cbn; lia |].
  split; [vm_compute; reflexivity |].
  split; reflexivity.
Qed.

Lemma deadline_monotone_in_span_witness :
  end_datetime (schedule_args test_operator (utc 2024 1 1 11 30 0 0))
  <= end_datetime (schedule_args two_hour_operator (utc 2024 1 1 12 30 0 0)).
Proof.
  apply (deadline_monotone_in_span (H := MockHost) test_operator two_hour_operator
           test_context scenario_A scenario_B).
  - vm_compute. discriminate.
  - left. reflexivity.
  - left. reflexivity.
Defined.

Lemma oracle_error_propagates_witness :
  run_execute test_operator test_context scenario_D
  = (Raise (Propagated ("transport error"%string : @OracleError MockHost)),
     mkState scenario_D [schedule_args test_operator (utc 2024 1 1 11 30 0 0)]) /\
  decide test_operator test_context scenario_D = None.
Proof.
  apply (oracle_error_propagates (H := MockHost) test_operator test_context
           scenario_D scenario_D (utc 2024 1 1 11 30 0 0)).
  - reflexivity.
  - reflexivity.
Defined.

Lemma oracle_gets_the_single_location_witness :
  locations (schedule_args test_operator (utc 2024 1 1 11 30 0 0)) = [location test_operator] /\
  List.length (locations (schedule_args test_operator (utc 2024 1 1 11 30 0 0))) = 1%nat.
Proof.
  apply (oracle_gets_the_single_location (H := MockHost) test_operator test_context scenario_A).
  left. reflexivity.
Defined.

End Witnesses.

(** ** Rounding is monotone *)

Section Monotone.

Lemma floor_mono (n d n' d' : Z) :
  0 < d -> 0 < d' -> n * d' <= n' * d -> n / d <= n' / d'.
Proof.
  intros Hd Hd' Hle.
  apply Z.div_le_lower_bound; [lia |].
  pose proof (Z.mul_div_le n d Hd).
  assert (d * (d' * (n / d)) <= d * n') by nia.
  apply Z.mul_le_mono_pos_l in H0; lia.
Qed.

Lemma round_half_even_mono (n d n' d' : Z) :
  0 <= n -> 0 < d -> 0 < d' -> n * d' <= n' * d ->
  round_half_even n d <= round_half_even n' d'.
Proof.
  intros Hn Hd Hd' Hle.
  assert (Hn' : 0 <= n') by nia.
  pose proof (floor_mono n d n' d' Hd Hd' Hle) as F.
  pose proof (round_half_even_spec n d Hn Hd) as [[_ U] _].
  pose proof (round_half_even_spec n' d' Hn' Hd') as [[L' _] _].
  destruct (Z.eq_dec (n / d) (n' / d')) as [E | NE]; [| lia].
  clear U L' F.
  unfold round_half_even. rewrite <- E.
  pose proof (Z.div_mod n d ltac:(lia)) as D. pose proof (Z.div_mod n' d' ltac:(lia)) as D'.
  pose proof (Z.mod_pos_bound n d Hd) as B. pose proof (Z.mod_pos_bound n' d' Hd') as B'.
  rewrite <- E in D'.
  set (k := n / d) in *. set (r := n mod d) in *. set (r' := n' mod d') in *.
  assert (R : r * d' <= r' * d) by nia.
  destruct (Z.ltb_spec (2 * r) d) as [C1 | C1].
  - destruct (Z.ltb_spec (2 * r') d'); [lia |].
    destruct (Z.ltb_spec d' (2 * r')); [lia |]. destruct (Z.even k); lia.
  - assert (R2 : d' <= 2 * r') by nia.
    destruct (Z.ltb_spec (2 * r') d') as [C1' | C1']; [lia |].
    destruct (Z.ltb_spec d (2 * r)) as [C2 | C2].
    + assert (d' < 2 * r') by nia.
      destruct (Z.ltb_spec d' (2 * r')); lia.
    + destruct (Z.ltb_spec d' (2 * r')); [destruct (Z.even k); lia |].
      destruct (Z.even k); lia.
Qed.

(** [2^e] as the fraction [2^max(0,e) / 2^max(0,-e)], for two exponents. *)
Lemma pow2_shift (e e' : Z) :
  e <= e' ->
  2 ^ Z.max 0 e' * 2 ^ Z.max 0 (- e) = 2 ^ (e' - e) * (2 ^ Z.max 0 e * 2 ^ Z.max 0 (- e')).
Proof.
  intros Hle.
  rewrite <- !Z.pow_add_r by lia. f_equal. lia.
Qed.

Lemma pow2_ge_2 (k : Z) : 1 <= k -> 2 <= 2 ^ k.
Proof.
  intros Hk. replace k with (Z.succ (k - 1)) by lia.
  rewrite Z.pow_succ_r by lia. pose proof (Z.pow_pos_nonneg 2 (k - 1)). lia.
Qed.

(** Rounding is monotone: a larger quotient never rounds to a smaller double. *)
Lemma round_pos_mono (a q a' q' : Z) :
  0 < a -> 0 < q -> 0 < a' -> 0 < q' -> a * q' <= a' * q ->
  fleb (round_pos a q) (round_pos a' q') = true.
Proof.
  intros Ha Hq Ha' Hq' Hle. unfold fleb. apply Z.leb_le.
  pose proof (binade_lower a q Ha Hq) as L.
  pose proof (binade_upper a' q' Ha' Hq') as U'.
  pose proof (round_pos_mant a q Ha Hq) as [_ M2].
  pose proof (round_pos_mant a' q' Ha' Hq') as [M1' _].
  unfold round_pos, fnum, fden in *; cbn [mant expo] in *.
  set (e := binade a q) in *. set (e' := binade a' q') in *.
  unfold scaled_num, scaled_den in *.
  pose proof (pow2_max_pos e) as P. pose proof (pow2_max_pos (- e)) as N.
  pose proof (pow2_max_pos e') as P'. pose proof (pow2_max_pos (- e')) as N'.
  assert (Z52 : 0 < 2 ^ 52) by lia.
  change (2 ^ 53) with (2 * 2 ^ 52) in *.
  destruct (Z.lt_trichotomy e e') as [Hlt | [Heq | Hgt]].
  - (* a lower binade *)
    pose proof (pow2_shift e e' ltac:(lia)) as S.
    pose proof (pow2_ge_2 (e' - e) ltac:(lia)) as G.
    set (pe := 2 ^ Z.max 0 e) in *. set (ne := 2 ^ Z.max 0 (- e)) in *.
    set (pe' := 2 ^ Z.max 0 e') in *. set (ne' := 2 ^ Z.max 0 (- e')) in *.
    set (m := round_half_even (a * ne) (q * pe)) in *.
    set (m' := round_half_even (a' * ne') (q' * pe')) in *.
    set (c := 2 ^ 52) in *. set (g := 2 ^ (e' - e)) in *.
    clearbody m m' pe ne pe' ne' c g. clear L U' Hle.
    assert (X : 0 < pe * ne') by (apply Z.mul_pos_pos; lia).
    apply Z.le_trans with (2 * c * (pe * ne')).
    + replace (m * pe * ne') with (m * (pe * ne')) by ring.
      apply Z.mul_le_mono_nonneg_r; lia.
    + apply Z.le_trans with (c * (pe' * ne)).
      * rewrite S. replace (2 * c * (pe * ne')) with (c * (2 * (pe * ne'))) by ring.
        apply Z.mul_le_mono_nonneg_l; [lia |].
        apply Z.mul_le_mono_nonneg_r; lia.
      * replace (m' * pe' * ne) with (m' * (pe' * ne)) by ring.
        apply Z.mul_le_mono_nonneg_r; [| lia].
        apply Z.lt_le_incl, Z.mul_pos_pos; lia.
  - (* the same binade *)
    rewrite <- Heq in *. clear Heq P' N'.
    set (pe := 2 ^ Z.max 0 e) in *. set (ne := 2 ^ Z.max 0 (- e)) in *.
    assert (Hm : round_half_even (a * ne) (q * pe) <= round_half_even (a' * ne) (q' * pe)).
    { apply round_half_even_mono.
      - apply Z.mul_nonneg_nonneg; lia.
      - apply Z.mul_pos_pos; lia.
      - apply Z.mul_pos_pos; lia.
      - replace (a * ne * (q' * pe)) with (a * q' * (ne * pe)) by ring.
        replace (a' * ne * (q * pe)) with (a' * q * (ne * pe)) by ring.
        apply Z.mul_le_mono_nonneg_r; [| exact Hle].
        apply Z.mul_nonneg_nonneg; lia. }
    apply Z.mul_le_mono_nonneg_r; [lia |].
    apply Z.mul_le_mono_nonneg_r; [lia | exact Hm].
  - (* a higher binade is impossible *)
    exfalso.
    pose proof (pow2_shift e' e ltac:(lia)) as S.
    pose proof (pow2_ge_2 (e - e') ltac:(lia)) as G.
    set (pe := 2 ^ Z.max 0 e) in *. set (ne := 2 ^ Z.max 0 (- e)) in *.
    set (pe' := 2 ^ Z.max 0 e') in *. set (ne' := 2 ^ Z.max 0 (- e')) in *.
    set (c := 2 ^ 52) in *. set (g := 2 ^ (e - e')) in *.
    clear M2 M1'. clearbody pe ne pe' ne' c g.
    assert (X : 0 < pe' * ne) by (apply Z.mul_pos_pos; lia).
    assert (T : 2 * (pe' * ne) <= pe * ne').
    { rewrite S. apply Z.mul_le_mono_nonneg_r; lia. }
    assert (A1 : c * (q * pe) * (q' * ne') <= a * ne * (q' * ne')).
    { apply Z.mul_le_mono_nonneg_r; [| exact L].
      apply Z.mul_nonneg_nonneg; lia. }
    assert (A2 : a * ne * (q' * ne') <= a' * ne' * (q * ne)).
    { replace (a * ne * (q' * ne')) with (a * q' * (ne * ne')) by ring.
      replace (a' * ne' * (q * ne)) with (a' * q * (ne * ne')) by ring.
      apply Z.mul_le_mono_nonneg_r; [| exact Hle].
      apply Z.mul_nonneg_nonneg; lia. }
    assert (A3 : a' * ne' * (q * ne) < 2 * c * (q' * pe') * (q * ne)).
    { apply Z.mul_lt_mono_pos_r; [| exact U'].
      apply Z.mul_pos_pos; lia. }
    assert (Y : 0 < c * (q * q')) by (repeat apply Z.mul_pos_pos; lia).
    assert (A4 : c * (q * q') * (pe * ne') < c * (q * q') * (2 * (pe' * ne))).
    { replace (c * (q * q') * (pe * ne')) with (c * (q * pe) * (q' * ne')) by ring.
      replace (c * (q * q') * (2 * (pe' * ne))) with (2 * c * (q' * pe') * (q * ne)) by ring.
      lia. }
    apply Z.mul_lt_mono_pos_l in A4; [lia | exact Y].
Qed.

Lemma fnum_of_ratio_sign (p q : Z) :
  0 < q ->
  (0 <= p -> 0 <= fnum (of_ratio p q)) /\ (p <= 0 -> fnum (of_ratio p q) <= 0).
Proof.
  intros Hq. destruct (Z.lt_trichotomy p 0) as [Hn | [-> | Hp]].
  - split; [lia | intros _].
    replace p with (- - p) by lia. rewrite of_ratio_opp, fnum_fneg.
    rewrite of_ratio_pos by lia. pose proof (round_pos_nonneg (- p) q ltac:(lia) Hq). lia.
  - split; intros _; cbn; lia.
  - split; [intros _ | lia]. rewrite of_ratio_pos by lia. now apply round_pos_nonneg.
Qed.

Lemma of_ratio_mono (p q p' q' : Z) :
  0 < q -> 0 < q' -> p * q' <= p' * q ->
  fleb (of_ratio p q) (of_ratio p' q') = true.
Proof.
  intros Hq Hq' Hle.
  pose proof (fnum_of_ratio_sign p q Hq) as [S1 S2].
  pose proof (fnum_of_ratio_sign p' q' Hq') as [S1' S2'].
  pose proof (fden_pos (of_ratio p q)) as D. pose proof (fden_pos (of_ratio p' q')) as D'.
  destruct (Z_lt_le_dec 0 p) as [Hp | Hp]; destruct (Z_lt_le_dec 0 p') as [Hp' | Hp'].
  - rewrite !of_ratio_pos by lia. apply round_pos_mono; lia.
  - exfalso. nia.
  - unfold fleb. apply Z.leb_le. specialize (S2 Hp). specialize (S1' ltac:(lia)). nia.
  - destruct (Z.eq_dec p' 0) as [-> | Hnz'].
    + unfold fleb. apply Z.leb_le. specialize (S2 Hp). specialize (S1' ltac:(lia)). nia.
    + assert (p < 0) by nia.
      replace p with (- - p) by lia. replace p' with (- - p') by lia.
      rewrite (of_ratio_opp (- p)), (of_ratio_opp (- p')).
      rewrite !of_ratio_pos by lia.
      pose proof (round_pos_mono (- p') q' (- p) q ltac:(lia) Hq' ltac:(lia) Hq ltac:(lia)) as R.
      unfold fleb in *. apply Z.leb_le in R. apply Z.leb_le.
      rewrite !fnum_fneg, !fden_fneg. lia.
Qed.

Lemma fdiv_int_mono (x y : float) (c : Z) :
  0 < c -> fleb x y = true -> fleb (fdiv_int x c) (fdiv_int y c) = true.
Proof.
  intros Hc Hle. unfold fleb in Hle. apply Z.leb_le in Hle.
  pose proof (fden_pos x). pose proof (fden_pos y).
  unfold fdiv_int. apply of_ratio_mono; nia.
Qed.

Lemma int_of_float_mono (x y : float) :
  fleb x y = true -> int_of_float x <= int_of_float y.
Proof.
  intros Hle. unfold fleb in Hle. apply Z.leb_le in Hle.
  pose proof (fden_pos x) as Dx. pose proof (fden_pos y) as Dy.
  unfold int_of_float.
  destruct (Z_le_gt_dec 0 (fnum x)) as [Sx | Sx].
  - assert (0 <= fnum y) by nia.
    rewrite !Z.quot_div_nonneg by lia. apply floor_mono; lia.
  - replace (fnum x) with (- - fnum x) by lia. rewrite Z.quot_opp_l by lia.
    rewrite (Z.quot_div_nonneg (- fnum x)) by lia.
    destruct (Z_le_gt_dec 0 (fnum y)) as [Sy | Sy].
    + rewrite Z.quot_div_nonneg by lia.
      pose proof (Z.div_pos (- fnum x) (fden x) ltac:(lia) Dx).
      pose proof (Z.div_pos (fnum y) (fden y) Sy Dy). lia.
    + replace (fnum y) with (- - fnum y) by lia. rewrite Z.quot_opp_l by lia.
      rewrite (Z.quot_div_nonneg (- fnum y)) by lia.
      pose proof (floor_mono (- fnum y) (fden y) (- fnum x) (fden x) Dy Dx ltac:(lia)). lia.
Qed.

Lemma hours_of_us_mono (us us' : Z) : us <= us' -> hours_of_us us <= hours_of_us us'.
Proof.
  intros Hle. unfold hours_of_us.
  apply int_of_float_mono, fdiv_int_mono; [lia |].
  apply of_ratio_mono; lia.
Qed.

End Monotone.

(** ** The whole range of [timedelta] *)

Section WholeRange.

(** The accumulated error of the two roundings of a positive duration. *)
Lemma two_roundings_error (us : Z) :
  0 < us ->
  let f1 := round_pos us (10 ^ 6) in
  let f2 := round_pos (fnum f1) (fden f1 * 3600) in
  2 ^ 106 * (3600000000 * fnum f2) <= (2 ^ 53 + 1) * (2 ^ 53 + 1) * (us * fden f2).
Proof.
  intros Hus f1 f2.
  destruct (hours_of_us_pos us Hus) as [P1 _]. fold f1 in P1.
  pose proof (fden_pos f1) as D1. pose proof (fden_pos f2) as D2.
  assert (Q1 : 0 < fden f1 * 3600) by lia.
  pose proof (round_pos_error us (10 ^ 6) Hus ltac:(lia)) as E1. fold f1 in E1.
  pose proof (round_pos_error (fnum f1) (fden f1 * 3600) P1 Q1) as E2. fold f2 in E2.
  assert (B1 : 2 ^ 53 * (fnum f1 * 10 ^ 6) <= (2 ^ 53 + 1) * (us * fden f1)) by lia.
  assert (B2 : 2 ^ 53 * (fnum f2 * (fden f1 * 3600)) <= (2 ^ 53 + 1) * (fnum f1 * fden f2))
    by lia.
  clear E1 E2. clearbody f2. clearbody f1.
  set (n1 := fnum f1) in *. set (d1 := fden f1) in *.
  set (n2 := fnum f2) in *. set (d2 := fden f2) in *.
  clearbody n1 d1 n2 d2.
  change (2 ^ 106) with (2 ^ 53 * 2 ^ 53). change (10 ^ 6) with 1000000 in *.
  set (c := 2 ^ 53) in *. assert (Hc : 0 < c) by (subst c; lia).
  apply Z.mul_le_mono_pos_l with (p := d1); [exact D1 |].
  apply Z.le_trans with ((c + 1) * d2 * (c * (n1 * 1000000))).
  - replace (d1 * (c * c * (3600000000 * n2)))
      with (c * 1000000 * (c * (n2 * (d1 * 3600)))) by ring.
    replace ((c + 1) * d2 * (c * (n1 * 1000000)))
      with (c * 1000000 * ((c + 1) * (n1 * d2))) by ring.
    apply Z.mul_le_mono_nonneg_l; [lia | exact B2].
  - replace (d1 * ((c + 1) * (c + 1) * (us * d2)))
      with ((c + 1) * d2 * ((c + 1) * (us * d1))) by ring.
    apply Z.mul_le_mono_nonneg_l; [nia | exact B1].
Qed.

(** Over the whole range of [timedelta], the value is the floor of the
    duration in hours, or one more. *)
Lemma hours_of_us_within_one (us : Z) :
  0 <= us < 86400000000 * 1000000000 ->
  us / 3600000000 <= hours_of_us us <= us / 3600000000 + 1.
Proof.
  intros [Hus Hb].
  destruct (Z.eq_dec us 0) as [-> | Hnz]; [cbn; lia |].
  destruct (hours_of_us_pos us ltac:(lia)) as [P1 ->].
  pose proof (two_roundings_error us ltac:(lia)) as T. cbv zeta in T.
  set (f1 := round_pos us (10 ^ 6)) in *.
  set (f2 := round_pos (fnum f1) (fden f1 * 3600)) in *.
  set (k := us / 3600000000) in *.
  pose proof (fden_pos f1) as D1. pose proof (fden_pos f2) as D2.
  pose proof (Z.div_mod us 3600000000 ltac:(lia)) as E.
  pose proof (Z.mod_pos_bound us 3600000000 ltac:(lia)) as R.
  fold k in E.
  assert (Hk : 0 <= k) by (apply Z.div_pos; lia).
  assert (Hk2 : k < 24000000000) by (apply Z.div_lt_upper_bound; lia).
  assert (Q1 : 0 < fden f1 * 3600) by lia.
  split.
  - pose proof (round_pos_ge_int us (10 ^ 6) (3600 * k) ltac:(lia) ltac:(lia)
                  ltac:(change (2 ^ 53) with 9007199254740992; lia) ltac:(lia)) as G1.
    fold f1 in G1.
    pose proof (round_pos_ge_int (fnum f1) (fden f1 * 3600) k P1 Q1
                  ltac:(change (2 ^ 53) with 9007199254740992; lia) ltac:(lia)) as G2.
    fold f2 in G2.
    apply Z.div_le_lower_bound; lia.
  - cut (fnum f2 / fden f2 < k + 2); [lia |].
    apply Z.div_lt_upper_bound; [lia |].
    clearbody f2. set (n2 := fnum f2) in *. set (d2 := fden f2) in *.
    clearbody n2 d2.
    destruct (Z_lt_ge_dec n2 (d2 * (k + 2))) as [? | Hge]; [assumption | exfalso].
    assert (A : 2 ^ 106 * (3600000000 * (d2 * (k + 2)))
                <= (2 ^ 53 + 1) * (2 ^ 53 + 1) * (us * d2)) by nia.
    replace (2 ^ 106 * (3600000000 * (d2 * (k + 2))))
      with (d2 * (2 ^ 106 * (3600000000 * (k + 2)))) in A by ring.
    replace ((2 ^ 53 + 1) * (2 ^ 53 + 1) * (us * d2))
      with (d2 * ((2 ^ 53 + 1) * (2 ^ 53 + 1) * us)) in A by ring.
    apply Z.mul_le_mono_pos_l in A; [| exact D2].
    change (2 ^ 106) with 81129638414606681695789005144064 in A.
    change (2 ^ 53) with 9007199254740992 in A.
    lia.
Qed.

(** On a whole number of hours the two roundings are exact, over the whole
    range of [timedelta]. *)
Lemma hours_of_us_whole (k : Z) :
  0 <= k < 24000000000 -> hours_of_us (3600000000 * k) = k.
Proof.
  intros [Hk Hb].
  destruct (Z.eq_dec k 0) as [-> | Hnz]; [reflexivity |].
  set (us := 3600000000 * k).
  assert (Hus : 0 < us) by (subst us; lia).
  destruct (hours_of_us_pos us Hus) as [P1 ->].
  pose proof (two_roundings_error us Hus) as T. cbv zeta in T.
  set (f1 := round_pos us (10 ^ 6)) in *.
  set (f2 := round_pos (fnum f1) (fden f1 * 3600)) in *.
  pose proof (fden_pos f1) as D1. pose proof (fden_pos f2) as D2.
  assert (Q1 : 0 < fden f1 * 3600) by lia.
  pose proof (round_pos_ge_int us (10 ^ 6) (3600 * k) ltac:(lia) ltac:(lia)
                ltac:(change (2 ^ 53) with 9007199254740992; lia)
                ltac:(subst us; lia)) as G1.
  fold f1 in G1.
  pose proof (round_pos_ge_int (fnum f1) (fden f1 * 3600) k P1 Q1
                ltac:(change (2 ^ 53) with 9007199254740992; lia) ltac:(lia)) as G2.
  fold f2 in G2.
  clearbody f2. set (n2 := fnum f2) in *. set (d2 := fden f2) in *. clearbody n2 d2.
  cut (k * d2 <= n2 < (k + 1) * d2).
  { intros Hn. symmetry. apply Z.div_unique_pos with (r := n2 - k * d2); lia. }
  split; [exact G2 |].
  destruct (Z_lt_ge_dec n2 ((k + 1) * d2)) as [? | Hge]; [assumption | exfalso].
  assert (A : d2 * (2 ^ 106 * (3600000000 * (k + 1)))
              <= d2 * ((2 ^ 53 + 1) * (2 ^ 53 + 1) * us)) by nia.
  apply Z.mul_le_mono_pos_l in A; [| exact D2].
  change (2 ^ 106) with 81129638414606681695789005144064 in A.
  change (2 ^ 53) with 9007199254740992 in A.
  subst us. lia.
Qed.

Lemma wf_timedelta_bound (d : timedelta) :
  wf_timedelta d -> Z.abs (to_microseconds d) < 86400000000 * 1000000000.
Proof. unfold wf_timedelta, to_microseconds. lia. Qed.

Lemma binade_bounds (a q : Z) :
  Z.log2 a - Z.log2 q - 53 <= binade a q <= Z.log2 a - Z.log2 q - 52.
Proof. unfold binade. destruct (_ <=? _); lia. Qed.

Lemma normal_fneg (x : float) : normal_binary64 (fneg x) = normal_binary64 x.
Proof. unfold normal_binary64, fneg; cbn [mant expo]. now rewrite Z.abs_opp. Qed.

Lemma fdiv_int_fneg (x : float) (c : Z) : fdiv_int (fneg x) c = fneg (fdiv_int x c).
Proof. unfold fdiv_int. now rewrite fnum_fneg, fden_fneg, of_ratio_opp. Qed.

Lemma quotients_normal_pos (us : Z) :
  0 < us < 86400000000 * 1000000000 ->
  normal_binary64 (of_ratio us (10 ^ 6)) = true /\
  normal_binary64 (fdiv_int (of_ratio us (10 ^ 6)) 3600) = true.
Proof.
  intros [Hus Hb].
  destruct (hours_of_us_pos us Hus) as [P1 _].
  unfold fdiv_int. rewrite (of_ratio_pos us) by exact Hus.
  rewrite (of_ratio_pos (fnum (round_pos us (10 ^ 6)))) by exact P1.
  set (f1 := round_pos us (10 ^ 6)) in *.
  pose proof (fden_pos f1) as D1.
  assert (Q1 : 0 < fden f1 * 3600) by lia.
  pose proof (round_pos_mant us (10 ^ 6) Hus ltac:(lia)) as M1. fold f1 in M1.
  pose proof (round_pos_mant (fnum f1) (fden f1 * 3600) P1 Q1) as M2.
  pose proof (binade_bounds us (10 ^ 6)) as B1.
  pose proof (binade_bounds (fnum f1) (fden f1 * 3600)) as B2.
  change (binade us (10 ^ 6)) with (expo f1) in B1.
  set (f2 := round_pos (fnum f1) (fden f1 * 3600)) in *.
  change (binade (fnum f1) (fden f1 * 3600)) with (expo f2) in B2.
  change (Z.log2 (10 ^ 6)) with 19 in B1.
  pose proof (Z.log2_nonneg us) as L0.
  assert (L1 : Z.log2 us < 67).
  { apply Z.log2_lt_pow2; [lia |]. change (2 ^ 67) with 147573952589676412928. lia. }
  assert (E1 : -72 <= expo f1 <= -5) by lia.
  assert (F1 : fnum f1 = mant f1).
  { unfold fnum. rewrite Z.max_l by lia. rewrite Z.pow_0_r. ring. }
  assert (F2 : fden f1 <= 2 ^ 72).
  { unfold fden. apply Z.pow_le_mono_r; lia. }
  rewrite F1 in B2.
  assert (L2 : 52 <= Z.log2 (mant f1) < 54).
  { split.
    - apply Z.log2_le_pow2; lia.
    - apply Z.log2_lt_pow2; [lia |]. change (2 ^ 54) with (2 * 2 ^ 53). lia. }
  pose proof (Z.log2_nonneg (fden f1 * 3600)) as L3.
  assert (L4 : Z.log2 (fden f1 * 3600) < 84).
  { apply Z.log2_lt_pow2; [lia |].
    change (2 ^ 84) with (2 ^ 72 * 4096). lia. }
  clearbody f2. clearbody f1.
  unfold normal_binary64.
  rewrite !(Z.abs_eq (mant _)) by lia.
  split; repeat (apply andb_true_intro; split); apply Z.leb_le; lia.
Qed.

(** X16. For every well-formed, non-zero [timedelta], the two quotients of
    [int(td.total_seconds() / 3600)] are normal doubles: neither division
    overflows or underflows. *)
Theorem duration_quotients_normal (d : timedelta) :
  wf_timedelta d -> to_microseconds d <> 0 ->
  normal_binary64 (total_seconds d) = true /\
  normal_binary64 (fdiv_int (total_seconds d) 3600) = true.
Proof.
  intros Hwf Hnz. apply wf_timedelta_bound in Hwf. unfold total_seconds.
  destruct (Z_lt_le_dec 0 (to_microseconds d)) as [Hp | Hn].
  - apply quotients_normal_pos. lia.
  - replace (to_microseconds d) with (- - to_microseconds d) by lia.
    rewrite of_ratio_opp, fdiv_int_fneg, !normal_fneg.
    apply quotients_normal_pos. lia.
Qed.

End WholeRange.

(** ** More on [execute] and [execute_complete] *)

Section MoreExecute.
Context {H : Host}.

Lemma in_range_spec (t : Z) :
  in_range t = true <-> datetime_min <= t <= datetime_max.
Proof.
  unfold in_range. rewrite andb_true_iff, !Z.leb_le. tauto.
Qed.

(** X3. A deferral is never to the past and never made up: if [execute]
    raises [TaskDeferred], the method named is [execute_complete], the
    trigger ends the task from the trigger, the oracle was called exactly
    once and answered, and the trigger's moment is the oracle's optimal start
    time, not before the clock reading taken after the call. *)
Theorem deferral_inversion
  (self : ElectricityMapsSchedulerOperator) (context : Context) (w : World)
  (trigger : DateTimeTrigger) (method_name : string) (s : State) :
  run_execute self context w = (Raise (TaskDeferred trigger method_name), s) ->
  method_name = "execute_complete"%string /\
  end_from_trigger trigger = true /\
  datetime_now_utc (world s) <= moment trigger /\
  exists deadline r,
    datetime_add (execution_date context) (expected_duration self) = Some deadline /\
    oracle_calls s = [schedule_args self deadline] /\
    schedule_execution (schedule_args self deadline) w = (inr r, world s) /\
    optimal_start_time r = moment trigger.
Proof.
  rewrite run_execute_cases.
  destruct (datetime_add _ _) as [deadline |] eqn:Hd; cbn zeta; [| discriminate].
  destruct (schedule_execution _ w) as [[e | r] w'] eqn:Ho; [discriminate |].
  destruct (Z.ltb_spec (optimal_start_time r) (datetime_now_utc w')) as [Hlt | Hge];
    [discriminate |].
  intros E. inversion E; subst; clear E. cbn.
  repeat split; try lia.
  exists deadline, r. repeat split; assumption.
Qed.

(** X4. If [execute] returns, the oracle was called exactly once and
    recommended a start time strictly before the clock reading taken after
    the call: the job is never released without asking the oracle. *)
Theorem return_inversion
  (self : ElectricityMapsSchedulerOperator) (context : Context) (w : World)
  (u : unit) (s : State) :
  run_execute self context w = (Return u, s) ->
  exists deadline r,
    datetime_add (execution_date context) (expected_duration self) = Some deadline /\
    oracle_calls s = [schedule_args self deadline] /\
    schedule_execution (schedule_args self deadline) w = (inr r, world s) /\
    optimal_start_time r < datetime_now_utc (world s).
Proof.
  rewrite run_execute_cases.
  destruct (datetime_add _ _) as [deadline |] eqn:Hd; cbn zeta; [| discriminate].
  destruct (schedule_execution _ w) as [[e | r] w'] eqn:Ho; [discriminate |].
  destruct (Z.ltb_spec (optimal_start_time r) (datetime_now_utc w')) as [Hlt | Hge];
    [| discriminate].
  intros E. inversion E; subst; clear E. cbn.
  exists deadline, r. repeat split; assumption.
Qed.

(** X5. After a deferral, [execute_complete] returns [None] for any list
    of events, without calling the oracle again or touching the world: over
    the deferral and its resumption the oracle is called exactly once. *)
Theorem resume_is_a_no_op
  (self : ElectricityMapsSchedulerOperator) (context : Context) (w : World)
  (trigger : DateTimeTrigger) (method_name : string) (s : State) (event_list : list unit) :
  run_execute self context w = (Raise (TaskDeferred trigger method_name), s) ->
  execute_complete self context event_list s = (Return tt, s) /\
  List.length (oracle_calls (snd (execute_complete self context event_list s))) = 1%nat /\
  world (snd (execute_complete self context event_list s)) = world s.
Proof.
  intros E. apply deferral_inversion in E.
  destruct E as (_ & _ & _ & deadline & r & _ & C & _).
  unfold execute_complete, ret; cbn. rewrite C. repeat split.
Qed.

(** X6. Only the optimal start time of the response is used: two answers
    of the oracle with the same optimal start time, followed by the same
    clock reading, give the same result, whatever the optimal location and
    the diagnostics they carry. *)
Theorem response_details_ignored
  (self : ElectricityMapsSchedulerOperator) (context : Context) (w1 w2 w1' w2' : World)
  (deadline : datetime) (r1 r2 : OptimizerResponse) :
  datetime_add (execution_date context) (expected_duration self) = Some deadline ->
  schedule_execution (schedule_args self deadline) w1 = (inr r1, w1') ->
  schedule_execution (schedule_args self deadline) w2 = (inr r2, w2') ->
  optimal_start_time r1 = optimal_start_time r2 ->
  datetime_now_utc w1' = datetime_now_utc w2' ->
  fst (run_execute self context w1) = fst (run_execute self context w2).
Proof.
  intros Hd H1 H2 Ht Hn.
  rewrite !run_execute_cases, Hd. cbn zeta. rewrite H1, H2, Ht, Hn.
  destruct (_ <? _); reflexivity.
Qed.

(** X7. What the oracle is asked depends on the operator and on
    [execution_date] only: not on the clock, nor on anything else in the
    world the run starts from. *)
Theorem oracle_arguments_ignore_the_world
  (self : ElectricityMapsSchedulerOperator) (context : Context) (w1 w2 : World) :
  oracle_calls (snd (run_execute self context w1))
  = oracle_calls (snd (run_execute self context w2)).
Proof. now rewrite !oracle_calls_execute. Qed.

(** X10. The deadline sent to the oracle is at or after the reference
    time [execution_date] exactly when the expected duration is not
    negative. *)
Theorem deadline_not_before_reference_iff
  (self : ElectricityMapsSchedulerOperator) (context : Context) (w : World)
  (args : ScheduleArgs) :
  In args (oracle_calls (snd (run_execute self context w))) ->
  (execution_date context <= end_datetime args
   <-> 0 <= to_microseconds (expected_duration self)).
Proof.
  intros Hin. apply In_oracle_calls in Hin. subst args. cbn. lia.
Qed.

End MoreExecute.

(** ** More on the number of hours *)

Section Hours.

(** X11. [int(total_seconds() / 3600)] is monotone in the duration, for
    all durations: the two roundings never reverse an order. *)
Theorem duration_hours_monotone (d1 d2 : timedelta) :
  to_microseconds d1 <= to_microseconds d2 -> duration_hours d1 <= duration_hours d2.
Proof. intros Hle. rewrite !duration_hours_us. now apply hours_of_us_mono. Qed.

(** X12. The number of hours is at least 1, the minimum the oracle asks
    for, exactly when the expected duration is at least one hour. *)
Theorem duration_hours_positive_iff (d : timedelta) :
  1 <= duration_hours d <-> 3600000000 <= to_microseconds d.
Proof.
  rewrite duration_hours_us. split.
  - intros Hh.
    destruct (Z_lt_le_dec (to_microseconds d) 3600000000) as [Hlt | ?]; [| assumption].
    destruct (hours_of_us_sub_hour _ Hlt) as [L _]. lia.
  - intros Hus. pose proof (hours_of_us_mono _ _ Hus) as M.
    change (hours_of_us 3600000000) with 1 in M. exact M.
Qed.

(** X13. Opposite durations give opposite numbers of hours: the
    truncation is toward zero, not a floor. *)
Theorem duration_hours_odd (d1 d2 : timedelta) :
  to_microseconds d1 = - to_microseconds d2 -> duration_hours d1 = - duration_hours d2.
Proof. intros E. rewrite !duration_hours_us, E. apply hours_of_us_opp. Qed.

(** X14. For every well-formed [timedelta], the number of hours is the
    duration truncated toward zero to whole hours, or that number moved one
    away from zero: one more for a positive duration, one less for a
    negative one. *)
Theorem duration_hours_within_one (d : timedelta) :
  wf_timedelta d ->
  (0 <= to_microseconds d ->
   Z.quot (to_microseconds d) 3600000000 <= duration_hours d
   <= Z.quot (to_microseconds d) 3600000000 + 1) /\
  (to_microseconds d <= 0 ->
   Z.quot (to_microseconds d) 3600000000 - 1 <= duration_hours d
   <= Z.quot (to_microseconds d) 3600000000).
Proof.
  intros Hwf. apply wf_timedelta_bound in Hwf. rewrite duration_hours_us.
  set (us := to_microseconds d) in *. split; intros Hs.
  - rewrite Z.quot_div_nonneg by lia. apply hours_of_us_within_one. lia.
  - replace us with (- - us) by lia.
    rewrite hours_of_us_opp, Z.quot_opp_l by lia.
    rewrite (Z.quot_div_nonneg (- us)) by lia.
    pose proof (hours_of_us_within_one (- us) ltac:(lia)). lia.
Qed.

(** X15. For every well-formed [timedelta] that is a whole number of
    hours, the number of hours is exactly that number, however large. *)
Theorem duration_hours_whole_hours (d : timedelta) (k : Z) :
  wf_timedelta d -> to_microseconds d = 3600000000 * k -> duration_hours d = k.
Proof.
  intros Hwf E. apply wf_timedelta_bound in Hwf. rewrite duration_hours_us, E.
  rewrite E in Hwf.
  destruct (Z_le_gt_dec 0 k) as [Hk | Hk].
  - apply hours_of_us_whole. lia.
  - replace (3600000000 * k) with (- (3600000000 * - k)) by ring.
    rewrite hours_of_us_opp, hours_of_us_whole by lia. lia.
Qed.

End Hours.

(** ** Witnesses of the further properties *)

Section MoreWitnesses.

Lemma deferral_inversion_witness :
  "execute_complete"%string = "execute_complete"%string /\
  end_from_trigger (mkDateTimeTrigger (utc 2024 1 1 14 0 0 0) true) = true /\
  datetime_now_utc (world (after_scenario scenario_B))
  <= moment (mkDateTimeTrigger (utc 2024 1 1 14 0 0 0) true) /\
  exists deadline r,
    datetime_add (execution_date test_context) (expected_duration test_operator)
    = Some deadline /\
    oracle_calls (after_scenario scenario_B) = [schedule_args test_operator deadline] /\
    schedule_execution (schedule_args test_operator deadline) scenario_B
    = (inr r, world (after_scenario scenario_B)) /\
    optimal_start_time r = moment (mkDateTimeTrigger (utc 2024 1 1 14 0 0 0) true).
Proof.
  apply (deferral_inversion (H := MockHost) test_operator test_context scenario_B).
  reflexivity.
Defined.

Lemma return_inversion_witness :
  exists deadline r,
    datetime_add (execution_date test_context) (expected_duration test_operator)
    = Some deadline /\
    oracle_calls (after_scenario scenario_A) = [schedule_args test_operator deadline] /\
    schedule_execution (schedule_args test_operator deadline) scenario_A
    = (inr r, world (after_scenario scenario_A)) /\
    optimal_start_time r < datetime_now_utc (world (after_scenario scenario_A)).
Proof.
  apply (return_inversion (H := MockHost) test_operator test_context scenario_A tt).
  reflexivity.
Defined.

Lemma resume_is_a_no_op_witness :
  execute_complete test_operator test_context [tt] (after_scenario scenario_B)
  = (Return tt, after_scenario scenario_B) /\
  List.length (oracle_calls (snd (execute_complete test_operator test_context [tt]
                                    (after_scenario scenario_B)))) = 1%nat /\
  world (snd (execute_complete test_operator test_context [tt] (after_scenario scenario_B)))
  = world (after_scenario scenario_B).
Proof.
  apply (resume_is_a_no_op (H := MockHost) test_operator test_context scenario_B
           (mkDateTimeTrigger (utc 2024 1 1 14 0 0 0) true) "execute_complete").
  reflexivity.
Defined.

Lemma response_details_ignored_witness :
  fst (run_execute test_operator test_context scenario_B)
  = fst (run_execute test_operator test_context scenario_B_other).
Proof.
  apply (response_details_ignored (H := MockHost) test_operator test_context
           scenario_B scenario_B_other scenario_B scenario_B_other
           (utc 2024 1 1 11 30 0 0)
           (make_optimizer_response (utc 2024 1 1 14 0 0 0))
           (other_response (utc 2024 1 1 14 0 0 0))).
  - reflexivity.
  - reflexivity.
  - reflexivity.
  - reflexivity.
  - reflexivity.
Defined.

Lemma deadline_not_before_reference_iff_witness :
  execution_date test_context
  <= end_datetime (schedule_args negative_operator (utc 2024 1 1 8 30 0 0))
  <-> 0 <= to_microseconds (expected_duration negative_operator).
Proof.
  apply (deadline_not_before_reference_iff (H := MockHost) negative_operator test_context
           scenario_A).
  left. reflexivity.
Defined.

Lemma duration_hours_monotone_witness :
  duration_hours (expected_duration test_operator)
  <= duration_hours (expected_duration long_operator).
Proof.
  apply (duration_hours_monotone (expected_duration test_operator)
           (expected_duration long_operator)).
  vm_compute. discriminate.
Defined.

Lemma duration_hours_odd_witness :
  duration_hours (expected_duration negative_operator)
  = - duration_hours (expected_duration two_hour_operator).
Proof.
  apply (duration_hours_odd (expected_duration negative_operator)
           (expected_duration two_hour_operator)).
  reflexivity.
Defined.

Lemma duration_hours_within_one_witness :
  (0 <= to_microseconds (expected_duration long_operator) ->
   Z.quot (to_microseconds (expected_duration long_operator)) 3600000000
   <= duration_hours (expected_duration long_operator)
   <= Z.quot (to_microseconds (expected_duration long_operator)) 3600000000 + 1) /\
  (to_microseconds (expected_duration long_operator) <= 0 ->
   Z.quot (to_microseconds (expected_duration long_operator)) 3600000000 - 1
   <= duration_hours (expected_duration long_operator)
   <= Z.quot (to_microseconds (expected_duration long_operator)) 3600000000).
Proof.
  apply (duration_hours_within_one (expected_duration long_operator)).
  unfold wf_timedelta; cbn; lia.
Defined.

Lemma duration_hours_whole_hours_witness : duration_hours ten_million_hours = 10000000.
Proof.
  apply (duration_hours_whole_hours ten_million_hours 10000000).
  - unfold wf_timedelta; cbn; lia.
  - reflexivity.
Defined.

Lemma duration_quotients_normal_witness :
  normal_binary64 (total_seconds (expected_duration sub_hour_operator)) = true /\
  normal_binary64 (fdiv_int (total_seconds (expected_duration sub_hour_operator)) 3600) = true.
Proof.
  apply (duration_quotients_normal (expected_duration sub_hour_operator)).
  - unfold wf_timedelta; cbn; lia.
  - vm_compute. discriminate.
Defined.

End MoreWitnesses.

(** ** [execute] on a [pendulum.DateTime] *)

Section Pendulum.

Lemma execute_on_datetime_add {H : Host} (self : ElectricityMapsSchedulerOperator)
  (context : Context) :
  execute_on datetime_add self context = execute self context.
Proof. reflexivity. Qed.

Lemma round_half_even_0 (d : Z) : 0 < d -> round_half_even 0 d = 0.
Proof.
  intros Hd. unfold round_half_even. rewrite Z.div_0_l, Zmod_0_l by lia.
  destruct (Z.ltb_spec (2 * 0) d); [reflexivity | lia].
Qed.

Lemma round_half_even_signed_opp (n d : Z) :
  0 < d -> round_half_even_signed (- n) d = - round_half_even_signed n d.
Proof.
  intros Hd. unfold round_half_even_signed.
  destruct (Z.leb_spec 0 n); destruct (Z.leb_spec 0 (- n)); try lia.
  - replace n with 0 by lia. cbn. rewrite round_half_even_0 by lia. reflexivity.
  - now rewrite Z.opp_involutive.
Qed.

Lemma int_of_float_fneg (x : float) : int_of_float (fneg x) = - int_of_float x.
Proof.
  unfold int_of_float. rewrite fnum_fneg, fden_fneg.
  apply Z.quot_opp_l. pose proof (fden_pos x). lia.
Qed.

Lemma microseconds_of_float_seconds_fneg (x : float) :
  microseconds_of_float_seconds (fneg x) = - microseconds_of_float_seconds x.
Proof.
  unfold microseconds_of_float_seconds. cbv zeta.
  rewrite int_of_float_fneg, fnum_fneg, fden_fneg.
  replace ((- fnum x - - int_of_float x * fden x) * 10 ^ 6)
    with (- ((fnum x - int_of_float x * fden x) * 10 ^ 6)) by ring.
  rewrite of_ratio_opp, fnum_fneg, fden_fneg.
  rewrite round_half_even_signed_opp by apply fden_pos.
  ring.
Qed.

(** An integer within 0.4 of a fraction is recovered by rounding a
    fraction within 0.01 of that one to the nearest integer. *)
Lemma nearest_integer_recovered (y U a d pn pd : Z) :
  0 < d -> 0 < pd ->
  - (2 * d) <= 5 * (a - y * d) <= 2 * d ->
  - (d * pd) <= 100 * (pn * d - a * pd) <= d * pd ->
  - pd <= 2 * (U * pd - pn) <= pd ->
  U = y.
Proof.
  intros Hd Hpd B3 B2 R.
  set (T := d * pd) in *. assert (HT : 0 < T) by (subst T; now apply Z.mul_pos_pos).
  assert (B1 : - T <= 2 * (U * pd - pn) * d <= T).
  { replace (- T) with (- pd * d) by (subst T; ring).
    replace T with (pd * d) by (subst T; ring).
    split; apply Z.mul_le_mono_nonneg_r; lia. }
  assert (B3' : - (2 * T) <= 5 * (a - y * d) * pd <= 2 * T).
  { replace (- (2 * T)) with (- (2 * d) * pd) by (subst T; ring).
    replace (2 * T) with (2 * d * pd) by (subst T; ring).
    split; apply Z.mul_le_mono_nonneg_r; lia. }
  assert (ID : 100 * ((U - y) * T)
               = 50 * (2 * (U * pd - pn) * d) + 100 * (pn * d - a * pd)
                 + 20 * (5 * (a - y * d) * pd)) by (subst T; ring).
  assert (S : - T < (U - y) * T < T) by lia.
  destruct (Z.lt_trichotomy U y) as [L | [E | G]]; [exfalso | exact E | exfalso].
  - assert ((U - y) * T <= - 1 * T) by (apply Z.mul_le_mono_nonneg_r; lia). lia.
  - assert (1 * T <= (U - y) * T) by (apply Z.mul_le_mono_nonneg_r; lia). lia.
Qed.

Lemma microseconds_of_float_seconds_exact_pos (us : Z) :
  0 < us < 3600000000 * 1000000 ->
  microseconds_of_float_seconds (of_ratio us (10 ^ 6)) = us.
Proof.
  intros [Hus Hb].
  rewrite of_ratio_pos by exact Hus.
  pose proof (round_pos_error us (10 ^ 6) Hus ltac:(lia)) as E1.
  pose proof (round_pos_nonneg us (10 ^ 6) Hus ltac:(lia)) as N1.
  unfold microseconds_of_float_seconds, int_of_float. cbv zeta.
  pose proof (fden_pos (round_pos us (10 ^ 6))) as D.
  rewrite Z.quot_div_nonneg by lia.
  generalize dependent (fnum (round_pos us (10 ^ 6))).
  generalize dependent (fden (round_pos us (10 ^ 6))).
  intros d D n E1 N1.
  change (10 ^ 6) with 1000000 in *. change (2 ^ 53) with 9007199254740992 in E1.
  pose proof (Z.div_mod n d ltac:(lia)) as DM.
  pose proof (Z.mod_pos_bound n d D) as MB.
  replace (n - n / d * d) with (n mod d) by lia.
  generalize dependent (n mod d). generalize dependent (n / d).
  intros I m DM MB.
  assert (Ud : 5 * (us * d) <= 2 * 9007199254740992 * d).
  { replace (5 * (us * d)) with (5 * us * d) by ring.
    apply Z.mul_le_mono_nonneg_r; lia. }
  assert (B3 : - (2 * d) <= 5 * (m * 1000000 - (us - I * 1000000) * d) <= 2 * d).
  { replace (m * 1000000 - (us - I * 1000000) * d) with (n * 1000000 - us * d)
      by (rewrite DM; ring).
    lia. }
  cut (round_half_even_signed (fnum (of_ratio (m * 1000000) d))
         (fden (of_ratio (m * 1000000) d)) = us - I * 1000000); [lia |].
  generalize dependent (us - I * 1000000). intros y B3. clear DM E1 Ud N1 Hb Hus.
  destruct (Z.eq_dec m 0) as [-> | Hm].
  - cbn [of_ratio Z.mul fnum fden mant expo].
    change (round_half_even_signed _ _) with 0.
    destruct (Z.lt_trichotomy y 0) as [L | [E | G]]; [exfalso | now symmetry | exfalso].
    + assert (y * d <= - 1 * d) by (apply Z.mul_le_mono_nonneg_r; lia). lia.
    + assert (1 * d <= y * d) by (apply Z.mul_le_mono_nonneg_r; lia). lia.
  - rewrite of_ratio_pos by lia.
    pose proof (round_pos_error (m * 1000000) d ltac:(lia) D) as E2.
    pose proof (round_pos_nonneg (m * 1000000) d ltac:(lia) D) as N2.
    pose proof (fden_pos (round_pos (m * 1000000) d)) as PD.
    generalize dependent (fnum (round_pos (m * 1000000) d)).
    generalize dependent (fden (round_pos (m * 1000000) d)).
    intros pd PD pn E2 N2.
    change (2 ^ 53) with 9007199254740992 in E2.
    unfold round_half_even_signed.
    destruct (Z.leb_spec 0 pn); [| lia].
    pose proof (round_half_even_spec pn pd ltac:(lia) PD) as [_ R].
    apply nearest_integer_recovered with (a := m * 1000000) (d := d) (pn := pn) (pd := pd);
      try assumption.
    assert (m * 1000000 * pd <= 1000000 * (d * pd)).
    { replace (m * 1000000 * pd) with (1000000 * (m * pd)) by ring.
      apply Z.mul_le_mono_nonneg_l; [lia |].
      apply Z.mul_le_mono_nonneg_r; lia. }
    lia.
Qed.

Lemma microseconds_of_float_seconds_exact (us : Z) :
  Z.abs us < 3600000000 * 1000000 ->
  microseconds_of_float_seconds (of_ratio us (10 ^ 6)) = us.
Proof.
  intros Hb. destruct (Z.lt_trichotomy us 0) as [Hn | [-> | Hp]].
  - replace us with (- - us) at 1 by lia.
    rewrite of_ratio_opp, microseconds_of_float_seconds_fneg.
    rewrite microseconds_of_float_seconds_exact_pos by lia. lia.
  - reflexivity.
  - apply microseconds_of_float_seconds_exact_pos. lia.
Qed.

(** Below 10^6 hours pendulum's addition is the exact one. *)
Lemma pendulum_add_exact (t : datetime) (d : timedelta) :
  Z.abs (to_microseconds d) < 3600000000 * 1000000 ->
  pendulum_add t d = datetime_add t d.
Proof.
  intros Hb. unfold pendulum_add, datetime_add, total_seconds.
  now rewrite microseconds_of_float_seconds_exact.
Qed.

End Pendulum.

Section ExecuteOn.
Context {H : Host}.
Variable plus : datetime -> timedelta -> option datetime.

Lemma run_execute_on_cases (self : ElectricityMapsSchedulerOperator) (context : Context)
  (w : World) :
  run_execute_on plus self context w =
  match plus (execution_date context) (expected_duration self) with
  | None => (Raise OverflowError, mkState w [])
  | Some deadline =>
      let args := schedule_args self deadline in
      match schedule_execution args w with
      | (inl e, w') => (Raise (Propagated e), mkState w' [args])
      | (inr r, w') =>
          if optimal_start_time r <? datetime_now_utc w'
          then (Return tt, mkState w' [args])
          else (Raise (TaskDeferred (mkDateTimeTrigger (optimal_start_time r) true)
                         "execute_complete"), mkState w' [args])
      end
  end.
Proof.
  unfold run_execute_on, execute_on, bind, call_schedule_execution, now_utc.
  destruct (plus _ _) as [deadline |]; cbn; [| reflexivity].
  destruct (schedule_execution _ w) as [[e | r] w']; cbn; [reflexivity |].
  destruct (_ <? _); reflexivity.
Qed.

Lemma oracle_calls_execute_on (self : ElectricityMapsSchedulerOperator) (context : Context)
  (w : World) :
  oracle_calls (snd (run_execute_on plus self context w)) =
  match plus (execution_date context) (expected_duration self) with
  | None => []
  | Some deadline => [schedule_args self deadline]
  end.
Proof.
  rewrite run_execute_on_cases.
  destruct (plus _ _) as [deadline |]; cbn; [| reflexivity].
  destruct (schedule_execution _ w) as [[e | r] w']; cbn; [reflexivity |].
  destruct (_ <? _); reflexivity.
Qed.

(** C3, as amended. [execute] rejects no request for its expected
    duration or its patience, whatever their signs: it checks neither, and
    whenever the deadline can be computed the oracle is called, exactly
    once.  The list of locations it receives is never empty: it is the
    one-element list holding the configured location. *)
Theorem nonpositive_request_is_not_rejected
  (self : ElectricityMapsSchedulerOperator) (context : Context) (w : World)
  (deadline : datetime) :
  plus (execution_date context) (expected_duration self) = Some deadline ->
  oracle_calls (snd (run_execute_on plus self context w)) = [schedule_args self deadline] /\
  oracle_calls (snd (run_execute_on plus self context w)) <> [] /\
  locations (schedule_args self deadline) = [location self].
Proof.
  intros Hd. rewrite oracle_calls_execute_on, Hd.
  split; [reflexivity |]. split; [discriminate | reflexivity].
Qed.

(** X1. When the addition [execution_date + expected_duration] raises
    [OverflowError], [execute] raises it before the oracle is called: no
    call is made and the world is left as it was. *)
Theorem overflowing_deadline_raises_before_the_oracle
  (self : ElectricityMapsSchedulerOperator) (context : Context) (w : World) :
  plus (execution_date context) (expected_duration self) = None ->
  run_execute_on plus self context w = (Raise OverflowError, mkState w []).
Proof. intros Hd. now rewrite run_execute_on_cases, Hd. Qed.

(** X2. No run of [execute] calls the oracle more than once, whatever the
    oracle answers or raises: there is no retry. *)
Theorem oracle_called_at_most_once
  (self : ElectricityMapsSchedulerOperator) (context : Context) (w : World) :
  (List.length (oracle_calls (snd (run_execute_on plus self context w))) <= 1)%nat.
Proof.
  rewrite oracle_calls_execute_on. destruct (plus _ _); cbn; lia.
Qed.

End ExecuteOn.

Section ExecuteMore.
Context {H : Host}.

Lemma run_execute_on_datetime_add (self : ElectricityMapsSchedulerOperator)
  (context : Context) (w : World) :
  run_execute_on datetime_add self context w = run_execute self context w.
Proof. reflexivity. Qed.

(** X17. For an expected duration shorter than 10^6 hours in magnitude,
    pendulum's addition through float seconds is exact: [execute] run on a
    [pendulum.DateTime] does what it does on a standard-library datetime,
    to the microsecond of the deadline. *)
Theorem pendulum_execution_date_changes_nothing
  (self : ElectricityMapsSchedulerOperator) (context : Context) (w : World) :
  Z.abs (to_microseconds (expected_duration self)) < 3600000000 * 1000000 ->
  run_execute_on pendulum_add self context w = run_execute self context w.
Proof.
  intros Hb. rewrite run_execute_on_cases, run_execute_cases.
  now rewrite pendulum_add_exact.
Qed.

(** C9. For every expected duration from zero up to, but excluding, one
    hour, the number of hours passed to the oracle is 0, below the minimum
    of 1 the oracle asks for: [execute] does not raise it to 1. *)
Theorem sub_hour_duration_passes_zero_hours
  (self : ElectricityMapsSchedulerOperator) (context : Context) (w : World)
  (args : ScheduleArgs) :
  0 <= to_microseconds (expected_duration self) < 3600000000 ->
  In args (oracle_calls (snd (run_execute self context w))) ->
  duration_hours (expected_duration self) = 0 /\
  expected_duration_hours args = 0 /\
  expected_duration_hours args < 1.
Proof.
  intros [H0 H1] Hin. apply In_oracle_calls in Hin. subst args.
  cbn [expected_duration_hours schedule_args].
  rewrite duration_hours_us.
  destruct (hours_of_us_sub_hour _ H1) as [_ Z0]. rewrite Z0 by lia. lia.
Qed.

(** X8. The optimal start time is not checked against the deadline that
    was sent: when the oracle recommends an instant after that deadline (and
    not before the clock), [execute] defers until that very instant, with
    [end_from_trigger=True] and [execute_complete], all the same. *)
Theorem optimal_start_not_checked_against_deadline
  (self : ElectricityMapsSchedulerOperator) (context : Context) (w w' : World)
  (deadline : datetime) (r : OptimizerResponse) :
  datetime_add (execution_date context) (expected_duration self) = Some deadline ->
  schedule_execution (schedule_args self deadline) w = (inr r, w') ->
  datetime_now_utc w' <= optimal_start_time r ->
  deadline < optimal_start_time r ->
  run_execute self context w =
    (Raise (TaskDeferred (mkDateTimeTrigger (optimal_start_time r) true) "execute_complete"),
     mkState w' [schedule_args self deadline]) /\
  Forall (fun args => end_datetime args < optimal_start_time r)
    (oracle_calls (snd (run_execute self context w))).
Proof.
  intros Hd Ho Hn Hlate.
  rewrite oracle_calls_execute, run_execute_cases, Hd. cbn zeta. rewrite Ho.
  destruct (Z.ltb_spec (optimal_start_time r) (datetime_now_utc w')); [lia |].
  split; [reflexivity |]. constructor; [exact Hlate | constructor].
Qed.

End ExecuteMore.


(** At the very end of the range the float route overflows where the
    exact sum is still [datetime.max]. *)
Example pendulum_overflows_at_the_edge :
  datetime_add (utc 2024 1 1 10 30 0 0) until_the_last_microsecond = Some datetime_max /\
  pendulum_add (utc 2024 1 1 10 30 0 0) until_the_last_microsecond = None.
Proof. split; vm_compute; reflexivity. Qed.

(** ** Witnesses of the revised statements *)

Section RevisedWitnesses.

Lemma nonpositive_request_is_not_rejected_witness :
  oracle_calls (snd (run_execute_on datetime_add negative_operator test_context scenario_A))
  = [schedule_args negative_operator (utc 2024 1 1 8 30 0 0)] /\
  oracle_calls (snd (run_execute_on datetime_add negative_operator test_context scenario_A))
  <> [] /\
  locations (schedule_args negative_operator (utc 2024 1 1 8 30 0 0))
  = [location negative_operator].
Proof.
  apply (nonpositive_request_is_not_rejected (H := MockHost) datetime_add
           negative_operator test_context scenario_A (utc 2024 1 1 8 30 0 0)).
  reflexivity.
Defined.

Lemma overflowing_deadline_raises_before_the_oracle_witness :
  run_execute_on pendulum_add edge_operator test_context scenario_A
  = (Raise OverflowError, mkState scenario_A []).
Proof.
  apply (overflowing_deadline_raises_before_the_oracle (H := MockHost) pendulum_add
           edge_operator test_context scenario_A).
  vm_compute. reflexivity.
Defined.

Lemma pendulum_execution_date_changes_nothing_witness :
  run_execute_on pendulum_add test_operator test_context scenario_B
  = run_execute test_operator test_context scenario_B.
Proof.
  apply (pendulum_execution_date_changes_nothing (H := MockHost)
           test_operator test_context scenario_B).
  vm_compute. reflexivity.
Defined.

Lemma sub_hour_duration_passes_zero_hours_witness :
  duration_hours (expected_duration sub_hour_operator) = 0 /\
  expected_duration_hours (schedule_args sub_hour_operator (utc 2024 1 1 11 29 59 999999)) = 0 /\
  expected_duration_hours (schedule_args sub_hour_operator (utc 2024 1 1 11 29 59 999999)) < 1.
Proof.
  apply (sub_hour_duration_passes_zero_hours (H := MockHost) sub_hour_operator
           test_context scenario_A).
  - split; [vm_compute; discriminate | reflexivity].
  - left. reflexivity.
Defined.

Lemma optimal_start_not_checked_against_deadline_witness :
  run_execute test_operator test_context scenario_B =
    (Raise (TaskDeferred (mkDateTimeTrigger (utc 2024 1 1 14 0 0 0) true) "execute_complete"),
     mkState scenario_B [schedule_args test_operator (utc 2024 1 1 11 30 0 0)]) /\
  Forall (fun args => end_datetime args < utc 2024 1 1 14 0 0 0)
    (oracle_calls (snd (run_execute test_operator test_context scenario_B))).
Proof.
  apply (optimal_start_not_checked_against_deadline (H := MockHost) test_operator test_context
           scenario_B scenario_B (utc 2024 1 1 11 30 0 0)
           (make_optimizer_response (utc 2024 1 1 14 0 0 0))).
  - reflexivity.
  - reflexivity.
  - vm_compute. discriminate.
  - reflexivity.
Defined.

End RevisedWitnesses.
